(** * CSES threat detection: a shallow embedding of [demo.py]

    The four layers of the detector (baseline anomaly score, playbook
    engine, threat synthesis, frame orchestration) are transcribed as Rocq
    functions.  Python floats are the kernel's binary64 floats, Python
    integers are [Z], Python dictionaries that are iterated are
    insertion-ordered association lists, and the scenario table (only ever
    looked up by key) is a [gmap].  A Python exception is a [Raise] result;
    stateful methods return the state they leave behind next to the result,
    so that writes made before an exception stay visible. *)

From Stdlib Require Import ZArith Floats Lia List Bool Sorted Permutation.
From stdpp Require Import base option gmap list strings.
Import ListNotations.

Set Warnings "-inexact-float".
Local Open Scope Z_scope.

(** ** Python values and exceptions *)

Module Py.

Inductive exn : Set :=
| KeyError
| IndexError
| ZeroDivisionError.

Inductive result (A : Type) : Type :=
| Ok (a : A)
| Raise (e : exn).
Arguments Ok {A} a.
Arguments Raise {A} e.

Definition bind {A B : Type} (m : result A) (k : A -> result B) : result B :=
  match m with
  | Ok a => k a
  | Raise e => Raise e
  end.

(** [d[k]] on a value that may be missing. *)
Definition subscript {A : Type} (o : option A) : result A :=
  match o with
  | Some a => Ok a
  | None => Raise KeyError
  end.

(** [l[-1]] and [l[-2]]. *)
Definition item_neg1 {A : Type} (l : list A) : result A :=
  match rev l with
  | a :: _ => Ok a
  | [] => Raise IndexError
  end.

Definition item_neg2 {A : Type} (l : list A) : result A :=
  match rev l with
  | _ :: a :: _ => Ok a
  | _ => Raise IndexError
  end.

(** [l[i]] for a non-negative index. *)
Definition item {A : Type} (l : list A) (i : nat) : result A :=
  match nth_error l i with
  | Some a => Ok a
  | None => Raise IndexError
  end.

(** *** Floats *)

(** [float(n)] for an integer [n]: the nearest binary64 value.  Python
    raises [OverflowError] for an integer beyond the binary64 range (above
    about 1.8e308); here such an integer becomes an infinity, pixel
    coordinates being far from that range. *)
Definition float_of_int (n : Z) : float :=
  SF2Prim (binary_normalize prec emax n 0 false).

(** [a > b] on floats. *)
Definition gtb (a b : float) : bool := PrimFloat.ltb b a.

(** [a / b] on floats. *)
Definition truediv (a b : float) : result float :=
  if PrimFloat.eqb b 0%float then Raise ZeroDivisionError
  else Ok (PrimFloat.div a b).

(** [n ** 0.5] for an integer [n >= 0]: the integer is converted to a
    float and raised to the power 0.5, taken here as the correctly rounded
    square root. *)
Definition sqrt_int (n : Z) : float := PrimFloat.sqrt (float_of_int n).

(** [max(a, b)]: the first argument unless the second is greater. *)
Definition max (a b : float) : float := if gtb b a then b else a.

(** *** Insertion-ordered dictionaries *)

Section Dict.
Context {K V : Type} `{EqDecision K}.

Definition dict : Type := list (K * V).

Fixpoint get (k : K) (d : dict) : option V :=
  match d with
  | [] => None
  | (k', v) :: d' => if decide (k = k') then Some v else get k d'
  end.

Definition mem (k : K) (d : dict) : bool :=
  match get k d with Some _ => true | None => false end.

(** [d[k] = v]: an existing key keeps its place, a new one goes last. *)
Fixpoint set (k : K) (v : V) (d : dict) : dict :=
  match d with
  | [] => [(k, v)]
  | (k', v') :: d' =>
      if decide (k = k') then (k, v) :: d' else (k', v') :: set k v d'
  end.

Definition keys (d : dict) : list K := map fst d.
Definition values (d : dict) : list V := map snd d.
End Dict.
Arguments dict K V : clear implicits.

End Py.

Import Py.

Notation "x <- m ;; k" := (Py.bind m (fun x => k))
  (at level 100, m at next level, right associativity).

(** ** Configuration *)

Module CONFIG.
Definition PRUNE_AGE_S : float := 5.0%float.
Definition PIXELS_TO_METERS : float := 0.1%float.
Definition STOP_SPEED_THRESHOLD_MPS : float := 0.5%float.
Definition ANOMALY_THRESHOLD : float := 0.7%float.
Definition ALERT_PROBABILITY_THRESHOLD : float := 0.75%float.
End CONFIG.

(** ** Data structures *)

Definition Point : Type := Z * Z.

Record Sample : Type := mkSample {
  pos : Point;
  time : float
}.

Record TrackedObject : Type := mkTrack {
  obj_id : Z;
  label : string;
  history : list Sample;
  last_updated : float
}.

(** A detection as received: any of the three fields may be missing. *)
Record Detection : Type := mkDetection {
  det_obj_id : option Z;
  det_label : option string;
  det_bbox : option (Z * Z * Z * Z)
}.

Record FrameData : Type := mkFrame {
  timestamp : float;
  detections : list Detection
}.

(** ** Layer 2: baseline anomaly detection *)

Module BaselineModel.

Record t : Type := mk {
  normal_road_polygon : list Point;
  normal_stopping_polygon : list Point
}.

Definition init : t := {|
  normal_road_polygon := [(0, 220); (1000, 220); (1000, 300); (0, 300)];
  normal_stopping_polygon := [(800, 220); (900, 220); (900, 300); (800, 300)]
|}.

(** One iteration of the edge loop: [p1] is the previous vertex, [p2] the
    current one.  The branch is entered only when [min p1y p2y < y <=
    max p1y p2y], hence with [p1y <> p2y], so [xinters] is assigned in
    the very iteration that reads it.  The quotient of the two integers is
    the binary64 quotient of their conversions, which is Python's result
    for integers below 2^53. *)
Definition edge_step (point : Point) (st : Point * bool) (p2 : Point)
  : Point * bool :=
  let '(x, y) := point in
  let '((p1x, p1y), inside) := st in
  let '(p2x, p2y) := p2 in
  let inside' :=
    if (Z.min p1y p2y <? y) && (y <=? Z.max p1y p2y) && (x <=? Z.max p1x p2x)
    then
      let xinters :=
        PrimFloat.add
          (PrimFloat.div (float_of_int ((y - p1y) * (p2x - p1x)))
                         (float_of_int (p2y - p1y)))
          (float_of_int p1x) in
      if (p1x =? p2x) || PrimFloat.leb (float_of_int x) xinters
      then negb inside else inside
    else inside in
  (p2, inside').

(** [range(n + 1)] visits [polygon[0], ..., polygon[n-1], polygon[0]]. *)
Definition _is_point_in_polygon (point : Point) (polygon : list Point)
  : result bool :=
  match polygon with
  | [] => Raise IndexError
  | p0 :: _ =>
      Ok (snd (fold_left (edge_step point) (polygon ++ [p0]) (p0, false)))
  end.

Definition calculate_anomaly_score (self : t) (track : TrackedObject)
    (is_stopped : bool) : result float :=
  current <- item_neg1 (history track) ;;
  let current_pos := pos current in
  in_road <- _is_point_in_polygon current_pos (normal_road_polygon self) ;;
  let location_anomaly := if negb in_road then 0.95%float else 0.0%float in
  stop_anomaly <-
    (if is_stopped then
       in_stop <- _is_point_in_polygon current_pos (normal_stopping_polygon self) ;;
       Ok (if negb in_stop then 0.95%float else 0.0%float)
     else Ok 0.0%float) ;;
  Ok (Py.max location_anomaly stop_anomaly).

End BaselineModel.

(** ** Layer 3: behavioural analysis engine *)

Module BehavioralEngine.

(** One entry of [active_scenarios]. [linked_obj_id] is the optional
    ['linked_obj_id'] key of the scenario dictionary. *)
Record Scenario : Type := mkScenario {
  playbook : string;
  state_index : nat;
  linked_obj_id : option Z
}.

Definition set_linked (sc : Scenario) (other : Z) : Scenario :=
  {| playbook := playbook sc;
     state_index := state_index sc;
     linked_obj_id := Some other |}.

Definition advance (sc : Scenario) : Scenario :=
  {| playbook := playbook sc;
     state_index := S (state_index sc);
     linked_obj_id := linked_obj_id sc |}.

(** The per-frame context dictionary, with the two keys the orchestrator
    rewrites for every object. *)
Record Context : Type := mkContext {
  all_tracks : dict Z TrackedObject;
  speeds : dict Z float;
  anomaly_score : float;
  is_stopped : bool
}.

(** A trigger reads the track and the context and may write the scenario
    table. *)
Definition Trigger : Type :=
  gmap Z Scenario -> TrackedObject -> Context -> result bool * gmap Z Scenario.

Record Playbook : Type := mkPlaybook {
  states : list string;
  triggers : list Trigger
}.

Record PlaybookInfo : Type := mkInfo {
  name : string;
  state : string
}.

(** [((a[0] - b[0])**2 + (a[1] - b[1])**2)**0.5] *)
Definition distance (a b : Point) : float :=
  sqrt_int ((fst a - fst b) ^ 2 + (snd a - snd b) ^ 2).

(** The loop of [_check_driver_exit]: the id of the first newly appeared
    pedestrian within 50 pixels, if any. *)
Fixpoint driver_exit_scan (vehicle_pos : Point) (others : list TrackedObject)
  : result (option Z) :=
  match others with
  | [] => Ok None
  | other_obj :: rest =>
      if String.eqb (label other_obj) "pedestrian"
         && (length (history other_obj) =? 1)%nat
      then
        ped <- item_neg1 (history other_obj) ;;
        let dist := distance vehicle_pos (pos ped) in
        if PrimFloat.ltb dist 50%float
        then Ok (Some (obj_id other_obj))
        else driver_exit_scan vehicle_pos rest
      else driver_exit_scan vehicle_pos rest
  end.

Definition _check_driver_exit : Trigger :=
  fun active_scenarios vehicle_track context =>
    match
      (vehicle <- item_neg1 (history vehicle_track) ;;
       driver_exit_scan (pos vehicle) (values (all_tracks context)))
    with
    | Raise e => (Raise e, active_scenarios)
    | Ok None => (Ok false, active_scenarios)
    | Ok (Some other) =>
        match active_scenarios !! obj_id vehicle_track with
        | None => (Raise KeyError, active_scenarios)
        | Some sc =>
            (Ok true,
             <[obj_id vehicle_track := set_linked sc other]> active_scenarios)
        end
    end.

Definition check_driver_separation (active_scenarios : gmap Z Scenario)
    (vehicle_track : TrackedObject) (context : Context) : result bool :=
  sc <- subscript (active_scenarios !! obj_id vehicle_track) ;;
  match linked_obj_id sc with
  | None => Ok false
  | Some ped_id =>
      match get ped_id (all_tracks context) with
      | None => Ok false
      | Some ped_track =>
          if (length (history ped_track) <? 2)%nat then Ok false
          else
            ped_curr <- item_neg1 (history ped_track) ;;
            ped_prev <- item_neg2 (history ped_track) ;;
            vehicle <- item_neg1 (history vehicle_track) ;;
            let dist_curr := distance (pos vehicle) (pos ped_curr) in
            let dist_prev := distance (pos vehicle) (pos ped_prev) in
            if gtb dist_curr dist_prev
            then
              speed <- subscript (get ped_id (speeds context)) ;;
              Ok (gtb speed CONFIG.STOP_SPEED_THRESHOLD_MPS)
            else Ok false
      end
  end.

Definition _check_driver_separation : Trigger :=
  fun active_scenarios vehicle_track context =>
    (check_driver_separation active_scenarios vehicle_track context,
     active_scenarios).

Definition stopped_in_anomalous_zone : Trigger :=
  fun active_scenarios track ctx =>
    (Ok (is_stopped ctx && gtb (anomaly_score ctx) CONFIG.ANOMALY_THRESHOLD),
     active_scenarios).

Definition vbied_dropoff : Playbook :=
  {| states := ["APPROACH"; "STOPPED_IN_ANOMALOUS_ZONE"; "DRIVER_EXIT";
                "SEPARATION"]%string;
     triggers := [stopped_in_anomalous_zone;
                  _check_driver_exit;
                  _check_driver_separation] |}.

Definition _load_playbooks : dict string Playbook :=
  [("VBIED_DROPOFF"%string, vbied_dropoff)].

Definition playbooks : dict string Playbook := _load_playbooks.

Definition relevant_label (l : string) : bool :=
  existsb (String.eqb l) ["van"; "truck"; "car"]%string.

(** First half of [update_scenarios]: start a scenario. *)
Definition start_scenario (active_scenarios : gmap Z Scenario)
    (track : TrackedObject) (context : Context) : gmap Z Scenario :=
  if negb (bool_decide (is_Some (active_scenarios !! obj_id track)))
     && gtb (anomaly_score context) CONFIG.ANOMALY_THRESHOLD
  then
    fold_left
      (fun scen (entry : string * Playbook) =>
         if relevant_label (label track)
         then <[obj_id track := mkScenario (fst entry) 0 None]> scen
         else scen)
      playbooks active_scenarios
  else active_scenarios.

(** Second half of [update_scenarios]: evaluate the trigger of the current
    state.  The scenario dictionary is shared with the table, so after the
    trigger it is read back from the table before [state_index] is
    incremented.  The last lookup is the one of the debug print. *)
Definition advance_scenario (active_scenarios : gmap Z Scenario)
    (track : TrackedObject) (context : Context)
  : result unit * gmap Z Scenario :=
  match active_scenarios !! obj_id track with
  | None => (Ok tt, active_scenarios)
  | Some scenario =>
      match get (playbook scenario) playbooks with
      | None => (Raise KeyError, active_scenarios)
      | Some pb =>
          let current_state_index := state_index scenario in
          if (current_state_index <? length (triggers pb))%nat then
            match nth_error (triggers pb) current_state_index with
            | None => (Raise IndexError, active_scenarios)
            | Some trigger_func =>
                match trigger_func active_scenarios track context with
                | (Raise e, scen) => (Raise e, scen)
                | (Ok false, scen) => (Ok tt, scen)
                | (Ok true, scen) =>
                    let scenario' := advance (default scenario (scen !! obj_id track)) in
                    let scen' := <[obj_id track := scenario']> scen in
                    (_ <- item (states pb) (state_index scenario') ;; Ok tt,
                     scen')
                end
            end
          else (Ok tt, active_scenarios)
      end
  end.

Definition update_scenarios (active_scenarios : gmap Z Scenario)
    (track : TrackedObject) (context : Context)
  : result unit * gmap Z Scenario :=
  advance_scenario (start_scenario active_scenarios track context) track context.

Definition get_matched_playbook_info (active_scenarios : gmap Z Scenario)
    (oid : Z) : result (option PlaybookInfo) :=
  match active_scenarios !! oid with
  | Some scenario =>
      pb <- subscript (get (playbook scenario) playbooks) ;;
      state_name <- item (states pb) (state_index scenario) ;;
      Ok (Some {| name := playbook scenario; state := state_name |})
  | None => Ok None
  end.

End BehavioralEngine.

(** ** Layer 4: threat synthesis and prioritisation *)

Module ThreatSynthesizer.

Import BehavioralEngine.

Record Evidence : Type := mkEvidence {
  ev_anomaly_score : float;
  ev_playbook_info : option PlaybookInfo
}.

Record Alert : Type := mkAlert {
  alert_obj_id : Z;
  threat_type : string;
  probability : float
}.

Definition likelihoods : dict string (dict string float) :=
  [("VBIED_DROPOFF"%string,
    [("high_anomaly"%string, 3.0%float);
     ("state_STOPPED_IN_ANOMALOUS_ZONE"%string, 10.0%float);
     ("state_DRIVER_EXIT"%string, 50.0%float);
     ("state_SEPARATION"%string, 100.0%float)])].

Definition prior : dict string float := [("VBIED_DROPOFF"%string, 0.0001%float)].

(** The belief multiplier selected by the evidence. *)
Definition multiplier (evidence : Evidence) : result float :=
  let multiplier := 1.0%float in
  match ev_playbook_info evidence with
  | Some playbook_info =>
      let threat_name := name playbook_info in
      let state_name := state playbook_info in
      match get threat_name likelihoods with
      | Some table =>
          Ok (PrimFloat.mul multiplier
                (default 1.0%float (get ("state_" ++ state_name)%string table)))
      | None => Ok multiplier
      end
  | None =>
      if gtb (ev_anomaly_score evidence) CONFIG.ANOMALY_THRESHOLD then
        table <- subscript (get "VBIED_DROPOFF"%string likelihoods) ;;
        high <- subscript (get "high_anomaly"%string table) ;;
        Ok (PrimFloat.mul multiplier high)
      else Ok multiplier
  end.

(** [for threat, prob in ...items(): if threat in likelihoods: ... *= m] *)
Definition scale (m : float) (threats : dict string float) : dict string float :=
  map (fun '(threat, prob) =>
         if mem threat likelihoods then (threat, PrimFloat.mul prob m)
         else (threat, prob))
      threats.

Definition cap (prob : float) : float :=
  if gtb prob 0.999%float then 0.999%float else prob.

(** [_normalize] on the dictionary of one object. *)
Definition normalize_threats (threats : dict string float) : dict string float :=
  map (fun '(threat, prob) => (threat, cap prob)) threats.

Definition _normalize (threat_probabilities : dict Z (dict string float))
    (oid : Z) : result unit * dict Z (dict string float) :=
  match get oid threat_probabilities with
  | None => (Raise KeyError, threat_probabilities)
  | Some threats =>
      (Ok tt, set oid (normalize_threats threats) threat_probabilities)
  end.

Definition update_threat_probabilities
    (threat_probabilities : dict Z (dict string float))
    (oid : Z) (evidence : Evidence)
  : result unit * dict Z (dict string float) :=
  let tp :=
    if negb (mem oid threat_probabilities)
    then set oid prior threat_probabilities
    else threat_probabilities in
  match multiplier evidence with
  | Raise e => (Raise e, tp)
  | Ok m =>
      match get oid tp with
      | None => (Raise KeyError, tp)
      | Some threats => _normalize (set oid (scale m threats) tp) oid
      end
  end.

(** [sorted(alerts, key=lambda x: x['probability'], reverse=True)]: a
    stable sort, greatest probability first; an alert is placed in front
    of the already sorted later alerts that are not greater than it. *)
Fixpoint insert_desc (a : Alert) (l : list Alert) : list Alert :=
  match l with
  | [] => [a]
  | b :: l' =>
      if PrimFloat.ltb (probability a) (probability b)
      then b :: insert_desc a l'
      else a :: l
  end.

Definition sorted_desc (alerts : list Alert) : list Alert :=
  fold_right insert_desc [] alerts.

(** The alerts in the order the two nested loops append them. *)
Definition collect_alerts (threat_probabilities : dict Z (dict string float))
  : list Alert :=
  flat_map
    (fun '(oid, threats) =>
       flat_map
         (fun '(threat, prob) =>
            if gtb prob CONFIG.ALERT_PROBABILITY_THRESHOLD
            then [ {| alert_obj_id := oid; threat_type := threat;
                      probability := prob |} ]
            else [])
         threats)
    threat_probabilities.

Definition get_prioritized_alerts
    (threat_probabilities : dict Z (dict string float)) : list Alert :=
  sorted_desc (collect_alerts threat_probabilities).

End ThreatSynthesizer.

(** ** Main orchestrator *)

Module ThreatDetector.

Import BehavioralEngine ThreatSynthesizer.

Record t : Type := mk {
  tracked_objects : dict Z TrackedObject;
  baseline_model : BaselineModel.t;
  active_scenarios : gmap Z Scenario;
  threat_probabilities : dict Z (dict string float)
}.

Definition init : t := {|
  tracked_objects := [];
  baseline_model := BaselineModel.init;
  active_scenarios := ∅;
  threat_probabilities := []
|}.

Definition _get_center (bbox : Z * Z * Z * Z) : Point :=
  let '(x, y, w, h) := bbox in
  (x + w / 2, y + h / 2).

(** The body of the loop of [_update_tracks] for one detection. *)
Definition update_track (tracks : dict Z TrackedObject) (det : Detection)
    (current_time : float) : result (dict Z TrackedObject) :=
  oid <- subscript (det_obj_id det) ;;
  bbox <- subscript (det_bbox det) ;;
  let center_pos := _get_center bbox in
  tracks' <-
    (if negb (mem oid tracks) then
       lbl <- subscript (det_label det) ;;
       Ok (set oid {| obj_id := oid; label := lbl; history := [];
                      last_updated := current_time |} tracks)
     else Ok tracks) ;;
  track <- subscript (get oid tracks') ;;
  Ok (set oid
        {| obj_id := obj_id track; label := label track;
           history := history track ++ [mkSample center_pos current_time];
           last_updated := current_time |}
        tracks').

(** [_update_tracks]: the store as left by the loop, also when a detection
    raises. *)
Fixpoint _update_tracks (tracks : dict Z TrackedObject)
    (dets : list Detection) (current_time : float)
  : result unit * dict Z TrackedObject :=
  match dets with
  | [] => (Ok tt, tracks)
  | det :: rest =>
      match update_track tracks det current_time with
      | Raise e => (Raise e, tracks)
      | Ok tracks' => _update_tracks tracks' rest current_time
      end
  end.

Definition _calculate_speed_mps (track : TrackedObject) : result float :=
  if (length (history track) <? 2)%nat then Ok 0.0%float
  else
    p1 <- item_neg2 (history track) ;;
    p2 <- item_neg1 (history track) ;;
    let dist_m :=
      PrimFloat.mul
        (sqrt_int ((fst (pos p2) - fst (pos p1)) ^ 2
                   + (snd (pos p2) - snd (pos p1)) ^ 2))
        CONFIG.PIXELS_TO_METERS in
    let time_s := PrimFloat.sub (time p2) (time p1) in
    if gtb time_s 0%float then truediv dist_m time_s else Ok 0.0%float.

(** The dictionary comprehension that builds [context['speeds']]. *)
Fixpoint compute_speeds (tracks : dict Z TrackedObject) : result (dict Z float) :=
  match tracks with
  | [] => Ok []
  | (oid, track) :: rest =>
      speed <- _calculate_speed_mps track ;;
      speeds <- compute_speeds rest ;;
      Ok ((oid, speed) :: speeds)
  end.

(** The three layers applied to one tracked object. *)
Definition process_object (self : t) (speeds : dict Z float)
    (oid : Z) (track : TrackedObject) : result unit * t :=
  match
    (speed <- subscript (get oid speeds) ;;
     let is_stopped := PrimFloat.ltb speed CONFIG.STOP_SPEED_THRESHOLD_MPS in
     score <- BaselineModel.calculate_anomaly_score (baseline_model self)
                track is_stopped ;;
     Ok (is_stopped, score))
  with
  | Raise e => (Raise e, self)
  | Ok (is_stopped, anomaly_score) =>
      let context := {| all_tracks := tracked_objects self;
                        speeds := speeds;
                        anomaly_score := anomaly_score;
                        is_stopped := is_stopped |} in
      let '(r, scen) := update_scenarios (active_scenarios self) track context in
      let self1 := {| tracked_objects := tracked_objects self;
                      baseline_model := baseline_model self;
                      active_scenarios := scen;
                      threat_probabilities := threat_probabilities self |} in
      match r with
      | Raise e => (Raise e, self1)
      | Ok _ =>
          match get_matched_playbook_info scen oid with
          | Raise e => (Raise e, self1)
          | Ok playbook_info =>
              let evidence := {| ev_anomaly_score := anomaly_score;
                                 ev_playbook_info := playbook_info |} in
              let '(r', tp) :=
                update_threat_probabilities (threat_probabilities self1)
                  oid evidence in
              (r', {| tracked_objects := tracked_objects self1;
                      baseline_model := baseline_model self1;
                      active_scenarios := active_scenarios self1;
                      threat_probabilities := tp |})
          end
      end
  end.

(** The loop over [tracked_objects.items()]. *)
Fixpoint process_objects (self : t) (speeds : dict Z float)
    (items : list (Z * TrackedObject)) : result unit * t :=
  match items with
  | [] => (Ok tt, self)
  | (oid, track) :: rest =>
      match process_object self speeds oid track with
      | (Raise e, self') => (Raise e, self')
      | (Ok _, self') => process_objects self' speeds rest
      end
  end.

Definition process_frame_data (self : t) (frame_data : FrameData)
  : result (list Alert) * t :=
  let current_time := timestamp frame_data in
  let '(r, tracks) :=
    _update_tracks (tracked_objects self) (detections frame_data) current_time in
  let self1 := {| tracked_objects := tracks;
                  baseline_model := baseline_model self;
                  active_scenarios := active_scenarios self;
                  threat_probabilities := threat_probabilities self |} in
  match r with
  | Raise e => (Raise e, self1)
  | Ok _ =>
      match compute_speeds tracks with
      | Raise e => (Raise e, self1)
      | Ok speeds =>
          match process_objects self1 speeds tracks with
          | (Raise e, self2) => (Raise e, self2)
          | (Ok _, self2) =>
              (Ok (get_prioritized_alerts (threat_probabilities self2)), self2)
          end
      end
  end.

(** Feeding a list of frames, stopping at the first exception as the
    simulation loop does; the alert lists of the processed frames are
    collected in order. *)
Fixpoint run (self : t) (frames : list FrameData)
  : result (list (list Alert)) * t :=
  match frames with
  | [] => (Ok [], self)
  | f :: rest =>
      match process_frame_data self f with
      | (Raise e, self') => (Raise e, self')
      | (Ok alerts, self') =>
          let '(r, self'') := run self' rest in
          (more <- r ;; Ok (alerts :: more), self'')
      end
  end.

End ThreatDetector.

(** ** The simulated feed *)

Module Simulation.

Definition det (oid : Z) (lbl : string) (bbox : Z * Z * Z * Z) : Detection :=
  {| det_obj_id := Some oid; det_label := Some lbl; det_bbox := Some bbox |}.

Definition simulation_api_feed : list FrameData :=
  [ mkFrame 1.0%float [det 101 "van" (100, 240, 60, 50)];
    mkFrame 2.0%float [det 101 "van" (250, 245, 60, 50)];
    mkFrame 3.0%float [det 101 "van" (400, 350, 60, 50)];
    mkFrame 4.0%float [det 101 "van" (400, 350, 60, 50)];
    mkFrame 5.0%float [det 101 "van" (400, 350, 60, 50);
                       det 202 "pedestrian" (450, 350, 20, 40)];
    mkFrame 6.0%float [det 101 "van" (400, 350, 60, 50);
                       det 202 "pedestrian" (480, 355, 20, 40)];
    mkFrame 7.0%float [det 101 "van" (400, 350, 60, 50);
                       det 202 "pedestrian" (510, 360, 20, 40)] ].

(** Calls of [update_scenarios] as the orchestrator issues them for the
    van once it has stopped, before and at the appearance of the
    pedestrian. *)
Definition van_stopped : TrackedObject :=
  mkTrack 101 "van"
    [mkSample (430, 375) 3.0%float; mkSample (430, 375) 4.0%float] 4.0%float.

Definition pedestrian_new : TrackedObject :=
  mkTrack 202 "pedestrian" [mkSample (460, 370) 5.0%float] 5.0%float.

Definition context_alone : BehavioralEngine.Context :=
  {| BehavioralEngine.all_tracks := [(101, van_stopped)];
     BehavioralEngine.speeds := [(101, 0.0%float)];
     BehavioralEngine.anomaly_score := 0.95%float;
     BehavioralEngine.is_stopped := true |}.

Definition context_exit : BehavioralEngine.Context :=
  {| BehavioralEngine.all_tracks := [(101, van_stopped); (202, pedestrian_new)];
     BehavioralEngine.speeds := [(101, 0.0%float); (202, 0.0%float)];
     BehavioralEngine.anomaly_score := 0.95%float;
     BehavioralEngine.is_stopped := true |}.

(** A frame whose first detection lacks its ['obj_id'], followed by a
    well-formed detection, and the same frame without the malformed one. *)
Definition malformed_frame : FrameData :=
  mkFrame 1.0%float
    [ {| det_obj_id := None; det_label := Some "van"%string;
         det_bbox := Some (100, 240, 60, 50) |};
      det 7 "car" (820, 240, 60, 40) ].

Definition repaired_frame : FrameData :=
  mkFrame 1.0%float [det 7 "car" (820, 240, 60, 40)].

(** Evidence as the orchestrator builds it: anomalous without a
    scenario, and with the scenario in its second state. *)
Definition evidence_anomaly : ThreatSynthesizer.Evidence :=
  {| ThreatSynthesizer.ev_anomaly_score := 0.95%float;
     ThreatSynthesizer.ev_playbook_info := None |}.

Definition evidence_stopped : ThreatSynthesizer.Evidence :=
  {| ThreatSynthesizer.ev_anomaly_score := 0.95%float;
     ThreatSynthesizer.ev_playbook_info :=
       Some {| BehavioralEngine.name := "VBIED_DROPOFF";
               BehavioralEngine.state := "STOPPED_IN_ANOMALOUS_ZONE" |} |}.

End Simulation.

(** ** Vocabulary of the properties *)

Module Props.

Import BehavioralEngine ThreatSynthesizer.

(** The two sub-scores of [calculate_anomaly_score], as functions of the
    two polygon tests. *)
Definition location_sub_score (in_road : bool) : float :=
  if negb in_road then 0.95%float else 0.0%float.

Definition stop_sub_score (is_stopped in_stop : bool) : float :=
  if is_stopped && negb in_stop then 0.95%float else 0.0%float.

(** A sequence of [update_scenarios] calls; the table survives a call that
    raises. *)
Definition scenario_call : Type := TrackedObject * Context.

Definition scenario_step (scen : gmap Z Scenario) (c : scenario_call)
  : gmap Z Scenario :=
  snd (update_scenarios scen (fst c) (snd c)).

Definition run_scenarios (scen : gmap Z Scenario) (calls : list scenario_call)
  : gmap Z Scenario :=
  fold_left scenario_step calls scen.

Definition linked (scen : gmap Z Scenario) (oid : Z) : option Z :=
  sc ← scen !! oid; linked_obj_id sc.

(** Whether a call executes the assignment to ['linked_obj_id']: the
    scenario of the track is at the driver-exit trigger and the trigger
    succeeds. *)
Definition writes_link (scen : gmap Z Scenario) (c : scenario_call) : bool :=
  let scen1 := start_scenario scen (fst c) (snd c) in
  match scen1 !! obj_id (fst c) with
  | Some sc =>
      (state_index sc =? 1)%nat
      && match fst (_check_driver_exit scen1 (fst c) (snd c)) with
         | Ok true => true
         | _ => false
         end
  | None => false
  end.

(** Number of writes to the ['linked_obj_id'] of object [oid] along a
    sequence of calls. *)
Fixpoint count_link_writes (scen : gmap Z Scenario) (oid : Z)
    (calls : list scenario_call) : nat :=
  match calls with
  | [] => 0
  | c :: rest =>
      ((if bool_decide (obj_id (fst c) = oid) && writes_link scen c
        then 1 else 0)
       + count_link_writes (scenario_step scen c) oid rest)%nat
  end.

(** What holds of every scenario table built by [update_scenarios] from
    the empty one. *)
Definition wf_scenarios (scen : gmap Z Scenario) : Prop :=
  forall oid sc,
    scen !! oid = Some sc ->
    playbook sc = "VBIED_DROPOFF"%string
    /\ (state_index sc <= 3)%nat
    /\ ((state_index sc < 2)%nat -> linked_obj_id sc = None).

(** A sequence of [update_threat_probabilities] calls. *)
Definition belief_call : Type := Z * Evidence.

Definition belief_step (tp : dict Z (dict string float)) (c : belief_call)
  : dict Z (dict string float) :=
  snd (update_threat_probabilities tp (fst c) (snd c)).

Definition run_beliefs (tp : dict Z (dict string float))
    (calls : list belief_call) : dict Z (dict string float) :=
  fold_left belief_step calls tp.

(** [threat_probabilities[oid][threat]], when present. *)
Definition belief (tp : dict Z (dict string float)) (oid : Z)
    (threat : string) : option float :=
  threats ← get oid tp; get threat threats.

(** The multipliers of the likelihood table, and the beliefs that can be
    stored starting from the prior: the closure of [0.0001] under
    multiplication by a multiplier followed by the cap. *)
Definition multipliers : list float := [1.0; 3.0; 10.0; 50.0; 100.0]%float.

Definition float_mem (x : float) (l : list float) : bool :=
  existsb (PrimFloat.Leibniz.eqb x) l.

Definition close_once (l : list float) : list float :=
  fold_left
    (fun acc x =>
       fold_left
         (fun acc m =>
            let y := cap (PrimFloat.mul x m) in
            if float_mem y acc then acc else acc ++ [y])
         multipliers acc)
    l l.

Definition stored_beliefs : list float :=
  Nat.iter 12 close_once [0.0001%float].

Definition closed_under_update (l : list float) : bool :=
  forallb
    (fun x =>
       PrimFloat.leb x x && PrimFloat.leb x 0.999%float
       && forallb
            (fun m =>
               let y := cap (PrimFloat.mul x m) in
               float_mem y l && PrimFloat.leb x y
               && PrimFloat.leb y 0.999%float)
            multipliers)
    l.

(** What holds of every belief table built by
    [update_threat_probabilities] from the empty one. *)
Definition wf_beliefs (tp : dict Z (dict string float)) : Prop :=
  forall oid threats,
    In (oid, threats) tp ->
    exists p, threats = [("VBIED_DROPOFF"%string, p)] /\ In p stored_beliefs.

(** A detection that makes [_update_tracks] raise on the store [tracks]:
    ['obj_id'] or ['bbox'] is missing, or ['label'] is missing and the
    object is not tracked yet. *)
Definition missing_field (tracks : dict Z TrackedObject) (d : Detection)
  : Prop :=
  det_obj_id d = None
  \/ det_bbox d = None
  \/ (exists oid, det_obj_id d = Some oid /\ mem oid tracks = false
                  /\ det_label d = None).

(** The reading of "the remaining detections of the same frame are still
    processed": every detection of the frame that has its three fields is
    in the track store, with the time of the frame, after the call. *)
Definition well_formed_applied (self : ThreatDetector.t) (frame : FrameData)
  : Prop :=
  forall d oid,
    In d (detections frame) ->
    det_obj_id d = Some oid ->
    is_Some (det_label d) -> is_Some (det_bbox d) ->
    exists track,
      get oid (ThreatDetector.tracked_objects
                 (snd (ThreatDetector.process_frame_data self frame)))
      = Some track
      /\ last_updated track = timestamp frame.

(** The track store left by [_update_tracks] for a frame: the store the
    three layers of the frame work on. *)
Definition frame_tracks (self : ThreatDetector.t) (frame : FrameData)
  : dict Z TrackedObject :=
  snd (ThreatDetector._update_tracks (ThreatDetector.tracked_objects self)
         (detections frame) (timestamp frame)).

(** The entry trigger as the orchestrator feeds it for a track: stopped
    (speed below the threshold) with an anomaly score above the threshold. *)
Definition stopped_in_anomalous_zone_at (bm : BaselineModel.t)
    (track : TrackedObject) : bool :=
  match ThreatDetector._calculate_speed_mps track with
  | Ok speed =>
      let is_stopped := PrimFloat.ltb speed CONFIG.STOP_SPEED_THRESHOLD_MPS in
      match BaselineModel.calculate_anomaly_score bm track is_stopped with
      | Ok score => is_stopped && gtb score CONFIG.ANOMALY_THRESHOLD
      | Raise _ => false
      end
  | Raise _ => false
  end.



(** The detector after a frame, whether or not the frame raised. *)
Definition after_frame (self : ThreatDetector.t) (frame : FrameData)
  : ThreatDetector.t :=
  snd (ThreatDetector.process_frame_data self frame).

(** [P] holds of every frame of a feed, taken with the detector the
    frames before it have left. *)
Fixpoint throughout (P : ThreatDetector.t -> FrameData -> Prop)
    (self : ThreatDetector.t) (frames : list FrameData) : Prop :=
  match frames with
  | [] => True
  | f :: rest => P self f /\ throughout P (after_frame self f) rest
  end.


(** In a frame, object [oid] (if tracked) is not stopped in an anomalous
    zone, whatever its label. *)
Definition untriggered_in_frame (oid : Z) (self : ThreatDetector.t)
    (frame : FrameData) : Prop :=
  forall track,
    get oid (frame_tracks self frame) = Some track ->
    stopped_in_anomalous_zone_at (ThreatDetector.baseline_model self) track
    = false.



(** The track store is a dictionary whose tracks carry their key. *)
Definition store_wf (tracks : dict Z TrackedObject) : Prop :=
  NoDup (keys tracks) /\ forall k tr, In (k, tr) tracks -> obj_id tr = k.



(** A van that drives along the normal road without ever stopping; it is
    first seen outside the normal-stopping polygon. *)
Definition driving_van_feed : list FrameData :=
  [ mkFrame 1.0%float [Simulation.det 5 "van" (100, 240, 60, 40)];
    mkFrame 2.0%float [Simulation.det 5 "van" (250, 240, 60, 40)];
    mkFrame 3.0%float [Simulation.det 5 "van" (400, 240, 60, 40)];
    mkFrame 4.0%float [Simulation.det 5 "van" (550, 240, 60, 40)] ].

(** A bus (a label outside the playbook's list) that enters at the traffic
    light and then drives off the road without stopping. *)
Definition offroad_bus_feed : list FrameData :=
  mkFrame 1.0%float [Simulation.det 6 "bus" (820, 240, 60, 40)]
  :: map (fun k : Z =>
            mkFrame (float_of_int (k + 1))
              [Simulation.det 6 "bus" (820, 240 + 100 * k, 60, 40)])
       [1; 2; 3; 4; 5; 6; 7; 8; 9].

(** An alert whose probability is a number. *)
Definition ordinary (a : Alert) : Prop :=
  Prim2SF (probability a) <> S754_nan.

(** An alert list in descending order of probability. *)
Definition descending (alerts : list Alert) : Prop :=
  StronglySorted
    (fun a b => PrimFloat.ltb (probability a) (probability b) = false)
    alerts.

Definition with_probability (p : float) (alerts : list Alert) : list Alert :=
  List.filter (fun a => PrimFloat.Leibniz.eqb (probability a) p) alerts.

End Props.

(** ** Vocabulary of the further properties *)

Module More.

Import BehavioralEngine ThreatSynthesizer.


(** A detection that carries its three fields. *)
Definition well_formed (d : Detection) : Prop :=
  is_Some (det_obj_id d) /\ is_Some (det_label d) /\ is_Some (det_bbox d).

(** [tr'] is [tr] with samples appended: same identity, same label. *)
Definition extends_track (tr tr' : TrackedObject) : Prop :=
  obj_id tr' = obj_id tr /\ label tr' = label tr
  /\ exists more, history tr' = history tr ++ more.

(** The store [tracks'] keeps every track of [tracks], extended, and the
    order of its keys; new keys come behind. *)
Definition store_extends (tracks tracks' : dict Z TrackedObject) : Prop :=
  (exists new, keys tracks' = keys tracks ++ new)
  /\ forall oid tr,
       get oid tracks = Some tr ->
       exists tr', get oid tracks' = Some tr' /\ extends_track tr tr'.

(** The detector after a feed, frame after frame, whether or not a frame
    raised. *)
Definition after_frames (self : ThreatDetector.t) (frames : list FrameData)
  : ThreatDetector.t :=
  fold_left Props.after_frame frames self.

(** The track of [oid] was updated at [time]: its last sample and its
    [last_updated] carry that time. *)
Definition updated_at (tracks : dict Z TrackedObject) (oid : Z) (now : float)
  : Prop :=
  exists tr s,
    get oid tracks = Some tr /\ item_neg1 (history tr) = Ok s
    /\ time s = now /\ last_updated tr = now.



(** A scenario table in which exactly the scenarios that have passed the
    driver-exit trigger carry a linked object. *)
Definition linked_when_exited (scen : gmap Z Scenario) : Prop :=
  forall oid sc,
    scen !! oid = Some sc ->
    ((2 <= state_index sc)%nat <-> is_Some (linked_obj_id sc)).

(** A scenario table in which object 101 waits for the separation of
    pedestrian 202. *)
Definition scenario_exited : gmap Z Scenario :=
  {[ 101 := mkScenario "VBIED_DROPOFF" 2 (Some 202) ]}.

(** A scenario table in which object 101 waits for the driver to exit. *)
Definition scenario_stopped : gmap Z Scenario :=
  {[ 101 := mkScenario "VBIED_DROPOFF" 1 None ]}.

(** No element of the list is below the prior. *)
Definition above_prior (l : list float) : bool :=
  forallb (fun x => PrimFloat.leb 0.0001%float x) l.

(** The multiplier the likelihood table gives for a playbook state. *)
Definition state_multiplier (threat_name state_name : string) : float :=
  if decide (threat_name = "VBIED_DROPOFF"%string) then
    if decide (state_name = "STOPPED_IN_ANOMALOUS_ZONE"%string) then 10.0%float
    else if decide (state_name = "DRIVER_EXIT"%string) then 50.0%float
    else if decide (state_name = "SEPARATION"%string) then 100.0%float
    else 1.0%float
  else 1.0%float.

(** Every active scenario belongs to a tracked object whose label is in
    the playbook's list. *)
Definition scenarios_on_vehicles (self : ThreatDetector.t) : Prop :=
  forall oid sc,
    ThreatDetector.active_scenarios self !! oid = Some sc ->
    exists tr,
      get oid (ThreatDetector.tracked_objects self) = Some tr
      /\ relevant_label (label tr) = true.

(** Object [oid] is named in the alert list of the table. *)
Definition alerted (tp : dict Z (dict string float)) (oid : Z) : Prop :=
  exists a, In a (get_prioritized_alerts tp) /\ alert_obj_id a = oid.

(** On the list, a belief above the alert threshold stays above it under
    every update. *)
Definition alert_kept (l : list float) : bool :=
  forallb
    (fun x =>
       forallb
         (fun m =>
            implb (gtb x CONFIG.ALERT_PROBABILITY_THRESHOLD)
              (gtb (cap (PrimFloat.mul x m)) CONFIG.ALERT_PROBABILITY_THRESHOLD))
         Props.multipliers)
    l.

End More.

(** * Properties *)

(** ** Order facts on binary64 floats *)

Module FloatOrder.


Ltac sf_cases :=
  repeat match goal with
  | s : bool |- _ => destruct s
  end; simpl; try congruence.

Lemma SFltb_asym (x y : spec_float) : SFltb x y = true -> SFltb y x = false.
Proof.
  unfold SFltb.
  destruct x as [s|s| |s m e], y as [s'|s'| |s' m' e']; simpl; sf_cases;
    fold (Pos.compare m m'); fold (Pos.compare m' m);
    rewrite (Z.compare_antisym e e'), (Pos.compare_antisym m m');
    destruct (e ?= e'), (m ?= m')%positive; simpl; congruence.
Qed.

(** "Not less than" is transitive away from NaN. *)
Lemma SFltb_false_trans (x y z : spec_float) :
  y <> S754_nan ->
  SFltb x y = false -> SFltb y z = false -> SFltb x z = false.
Proof.
  unfold SFltb.
  destruct x as [s|s| |s m e], y as [s'|s'| |s' m' e'], z as [s''|s''| |s'' m'' e''];
    simpl; sf_cases; intros _;
    fold (Pos.compare m m'); fold (Pos.compare m' m''); fold (Pos.compare m m'');
    destruct (Z.compare_spec e e'), (Z.compare_spec e' e''), (Z.compare_spec e e'');
    try lia; simpl; try congruence;
    destruct (Pos.compare_spec m m'), (Pos.compare_spec m' m''), (Pos.compare_spec m m'');
    try lia; simpl; congruence.
Qed.

Lemma ltb_asym (x y : float) :
  PrimFloat.ltb x y = true -> PrimFloat.ltb y x = false.
Proof. rewrite !FloatAxioms.ltb_spec. apply SFltb_asym. Qed.

Lemma ltb_irrefl (x : float) : PrimFloat.ltb x x = false.
Proof.
  destruct (PrimFloat.ltb x x) eqn:E; [|reflexivity].
  pose proof (ltb_asym _ _ E). congruence.
Qed.

Lemma ltb_not_nan_r (x y : float) :
  PrimFloat.ltb x y = true -> Prim2SF y <> S754_nan.
Proof.
  rewrite FloatAxioms.ltb_spec. unfold SFltb. intros H E. rewrite E in H.
  destruct (Prim2SF x); discriminate.
Qed.

Lemma ltb_false_trans (x y z : float) :
  Prim2SF y <> S754_nan ->
  PrimFloat.ltb x y = false -> PrimFloat.ltb y z = false ->
  PrimFloat.ltb x z = false.
Proof. rewrite !FloatAxioms.ltb_spec. apply SFltb_false_trans. Qed.



Lemma float_mem_In (x : float) (l : list float) :
  Props.float_mem x l = true <-> In x l.
Proof.
  unfold Props.float_mem. rewrite existsb_exists. split.
  - intros (y & Hy & E). apply FloatAxioms.Leibniz.eqb_spec in E. now subst.
  - intros H. exists x. split; [assumption|].
    now apply FloatAxioms.Leibniz.eqb_spec.
Qed.

End FloatOrder.

(** ** Python containers *)

Section DictFacts.
Context {K V : Type} `{EqDecision K}.
Implicit Types (d : dict K V) (k : K) (v : V).

Lemma get_set_eq d k v : get k (set k v d) = Some v.
Proof.
  induction d as [|[k' v'] d IH]; simpl.
  - now rewrite decide_True.
  - destruct (decide (k = k')) as [->|Hne]; simpl.
    + now rewrite decide_True.
    + now rewrite decide_False.
Qed.

Lemma get_set_ne d k k' v : k' <> k -> get k' (set k v d) = get k' d.
Proof.
  intros Hne. induction d as [|[k0 v0] d IH]; simpl.
  - now rewrite decide_False.
  - destruct (decide (k = k0)) as [->|Hne0]; simpl.
    + now rewrite !decide_False.
    + destruct (decide (k' = k0)); [reflexivity|assumption].
Qed.

Lemma mem_get d k : mem k d = true <-> is_Some (get k d).
Proof.
  unfold mem. destruct (get k d); split; intros H; try reflexivity;
    try discriminate; [eexists; reflexivity | destruct H; discriminate].
Qed.

Lemma mem_false_get d k : mem k d = false <-> get k d = None.
Proof. unfold mem. destruct (get k d); split; congruence. Qed.

Lemma set_In d k v k' v' :
  In (k', v') (set k v d) -> (k', v') = (k, v) \/ In (k', v') d.
Proof.
  induction d as [|[k0 v0] d IH]; simpl.
  - intros [E|[]]. left. congruence.
  - destruct (decide (k = k0)) as [->|Hne]; simpl.
    + intros [E|Hin]; [left; congruence|right; right; assumption].
    + intros [E|Hin]; [right; left; assumption|].
      destruct (IH Hin); [left|right; right]; assumption.
Qed.

Lemma set_set_eq d k v v' : set k v (set k v' d) = set k v d.
Proof.
  induction d as [|[k0 v0] d IH]; simpl.
  - now rewrite decide_True.
  - destruct (decide (k = k0)) as [->|Hne]; simpl.
    + now rewrite decide_True.
    + rewrite decide_False by assumption. now rewrite IH.
Qed.

Lemma get_singleton k k' v v' :
  get k [(k', v')] = Some v -> k = k' /\ v = v'.
Proof.
  simpl. destruct (decide (k = k')); [|discriminate].
  intros [= ->]. auto.
Qed.

Lemma get_In d k v : get k d = Some v -> In (k, v) d.
Proof.
  induction d as [|[k' v'] d IH]; simpl; [discriminate|].
  destruct (decide (k = k')) as [->|]; intros E.
  - left. congruence.
  - right. auto.
Qed.
End DictFacts.

Lemma item_neg1_app {A : Type} (l : list A) (a : A) : item_neg1 (l ++ [a]) = Ok a.
Proof. unfold item_neg1. now rewrite rev_app_distr. Qed.


Lemma item_neg1_nonempty {A : Type} (l : list A) :
  l <> [] -> exists a, item_neg1 l = Ok a.
Proof.
  intros H. destruct (exists_last H) as (l' & a & ->).
  exists a. apply item_neg1_app.
Qed.


(** ** Layer 2: the anomaly score *)

Section AnomalyScore.
Import BaselineModel Props.

Lemma is_point_in_polygon_total (point : Point) (polygon : list Point) :
  polygon <> [] -> exists b, _is_point_in_polygon point polygon = Ok b.
Proof. destruct polygon; [congruence|]. intros _. eexists. reflexivity. Qed.

Lemma calculate_anomaly_score_eq (track : TrackedObject) (is_stopped : bool)
    (cur : Sample) (in_road in_stop : bool) :
  item_neg1 (history track) = Ok cur ->
  _is_point_in_polygon (pos cur) (normal_road_polygon init) = Ok in_road ->
  _is_point_in_polygon (pos cur) (normal_stopping_polygon init) = Ok in_stop ->
  calculate_anomaly_score init track is_stopped
  = Ok (Py.max (location_sub_score in_road) (stop_sub_score is_stopped in_stop)).
Proof.
  intros Hcur Hroad Hstop. unfold calculate_anomaly_score.
  rewrite Hcur. cbn [Py.bind]. rewrite Hroad. cbn [Py.bind].
  destruct is_stopped; cbn [Py.bind andb]; [rewrite Hstop|]; reflexivity.
Qed.

(** C6. On every track with a current sample, [calculate_anomaly_score]
    returns the maximum of the location sub-score (0.95 outside the
    normal-road polygon, else 0) and the stop sub-score (0.95 when stopped
    outside the normal-stopping polygon, else 0): it is one of the two,
    not below either, and lies in [0, 1]; when both are 0.95 it is 0.95
    and not their sum. *)
Theorem anomaly_score_is_max (track : TrackedObject) (is_stopped : bool) :
  history track <> [] ->
  exists cur in_road in_stop score,
    item_neg1 (history track) = Ok cur
    /\ _is_point_in_polygon (pos cur) (normal_road_polygon init) = Ok in_road
    /\ _is_point_in_polygon (pos cur) (normal_stopping_polygon init) = Ok in_stop
    /\ calculate_anomaly_score init track is_stopped = Ok score
    /\ (score = location_sub_score in_road
        \/ score = stop_sub_score is_stopped in_stop)
    /\ PrimFloat.leb (location_sub_score in_road) score = true
    /\ PrimFloat.leb (stop_sub_score is_stopped in_stop) score = true
    /\ PrimFloat.leb 0%float score = true
    /\ PrimFloat.leb score 1%float = true
    /\ (in_road = false -> is_stopped = true -> in_stop = false ->
        score = 0.95%float
        /\ score <> PrimFloat.add (location_sub_score in_road)
                      (stop_sub_score is_stopped in_stop)).
Proof.
  intros Hne.
  destruct (item_neg1_nonempty _ Hne) as (cur & Hcur).
  destruct (is_point_in_polygon_total (pos cur) (normal_road_polygon init))
    as (in_road & Hroad); [discriminate|].
  destruct (is_point_in_polygon_total (pos cur) (normal_stopping_polygon init))
    as (in_stop & Hstop); [discriminate|].
  exists cur, in_road, in_stop.
  eexists. split; [exact Hcur|]. split; [exact Hroad|]. split; [exact Hstop|].
  split; [exact (calculate_anomaly_score_eq _ _ _ _ _ Hcur Hroad Hstop)|].
  destruct in_road, is_stopped, in_stop; vm_compute;
    repeat split; auto; try discriminate.
Qed.

Lemma anomaly_score_is_max_witness :
  exists cur in_road in_stop score,
    item_neg1 [mkSample (430, 375) 3.0%float] = Ok cur
    /\ _is_point_in_polygon (pos cur) (normal_road_polygon init) = Ok in_road
    /\ _is_point_in_polygon (pos cur) (normal_stopping_polygon init) = Ok in_stop
    /\ calculate_anomaly_score init
         (mkTrack 101 "van" [mkSample (430, 375) 3.0%float] 3.0%float) true
       = Ok score
    /\ (score = location_sub_score in_road \/ score = stop_sub_score true in_stop)
    /\ PrimFloat.leb (location_sub_score in_road) score = true
    /\ PrimFloat.leb (stop_sub_score true in_stop) score = true
    /\ PrimFloat.leb 0%float score = true
    /\ PrimFloat.leb score 1%float = true
    /\ (in_road = false -> true = true -> in_stop = false ->
        score = 0.95%float
        /\ score <> PrimFloat.add (location_sub_score in_road)
                      (stop_sub_score true in_stop)).
Proof.
  apply (anomaly_score_is_max
           (mkTrack 101 "van" [mkSample (430, 375) 3.0%float] 3.0%float) true).
  simpl. discriminate.
Defined.

End AnomalyScore.

(** ** Speed *)

Section Speed.
Import ThreatDetector Props.






End Speed.

(** ** Layer 3: the scenario table *)

Section Scenarios.
Import BehavioralEngine Props.
Implicit Types (scen : gmap Z Scenario) (track : TrackedObject) (ctx : Context).

Lemma get_vbied : get "VBIED_DROPOFF"%string playbooks = Some vbied_dropoff.
Proof. reflexivity. Qed.

Lemma start_scenario_spec scen track ctx :
  start_scenario scen track ctx = scen
  \/ (scen !! obj_id track = None
      /\ start_scenario scen track ctx
         = <[obj_id track := mkScenario "VBIED_DROPOFF" 0 None]> scen).
Proof.
  unfold start_scenario.
  destruct (scen !! obj_id track) as [sc|] eqn:E.
  - left. rewrite bool_decide_eq_true_2 by eauto. reflexivity.
  - rewrite bool_decide_eq_false_2 by (intros [? ?]; discriminate).
    cbn [negb andb].
    destruct (gtb _ _); [|now left].
    cbn [playbooks _load_playbooks fold_left fst].
    destruct (relevant_label _); [right|left]; auto.
Qed.

Lemma check_driver_exit_spec scen track ctx :
  (exists sc other,
      scen !! obj_id track = Some sc
      /\ _check_driver_exit scen track ctx
         = (Ok true, <[obj_id track := set_linked sc other]> scen))
  \/ (fst (_check_driver_exit scen track ctx) <> Ok true
      /\ snd (_check_driver_exit scen track ctx) = scen).
Proof.
  unfold _check_driver_exit.
  destruct (Py.bind _ _) as [[other|]|e]; try (right; split; [discriminate|reflexivity]).
  destruct (scen !! obj_id track) as [sc|] eqn:E.
  - left. eauto.
  - right. split; [discriminate|reflexivity].
Qed.

(** The three ways [advance_scenario] can treat an existing scenario of
    the VBIED playbook: leave the table alone, advance on a trigger that
    only reads, or advance on the driver-exit trigger that also links. *)
Lemma advance_scenario_spec scen track ctx sc :
  scen !! obj_id track = Some sc ->
  playbook sc = "VBIED_DROPOFF"%string ->
  (snd (advance_scenario scen track ctx) = scen
   /\ ~ (state_index sc = 1%nat
         /\ fst (_check_driver_exit scen track ctx) = Ok true))
  \/ ((state_index sc < 3)%nat /\ state_index sc <> 1%nat
      /\ snd (advance_scenario scen track ctx)
         = <[obj_id track := advance sc]> scen)
  \/ (state_index sc = 1%nat
      /\ fst (_check_driver_exit scen track ctx) = Ok true
      /\ exists other,
           snd (advance_scenario scen track ctx)
           = <[obj_id track := advance (set_linked sc other)]> scen).
Proof.
  intros Hsc Hpb.
  destruct (advance_scenario scen track ctx) as [r scen'] eqn:E. cbn [snd].
  unfold advance_scenario in E. rewrite Hsc, Hpb, get_vbied in E.
  destruct (state_index sc) as [|[|[|n]]] eqn:Hidx;
    cbn [vbied_dropoff triggers length Nat.ltb Nat.leb nth_error] in E.
  - unfold stopped_in_anomalous_zone in E.
    destruct (is_stopped ctx && _); rewrite ?Hsc in E; cbn [default] in E;
      injection E as _ <-.
    + right. left. repeat split; lia.
    + left. split; [reflexivity|]. intros [? _]. lia.
  - destruct (check_driver_exit_spec scen track ctx)
      as [(sc0 & other & Hsc0 & E')|[Hne Hsame]].
    + right. right. rewrite E' in E |- *. cbn [fst].
      rewrite lookup_insert_eq in E. cbn [default] in E.
      rewrite insert_insert_eq in E. injection E as _ <-.
      split; [reflexivity|]. split; [reflexivity|].
      exists other. congruence.
    + left. destruct (_check_driver_exit scen track ctx) as [[[|]|e] scen2];
        cbn [fst snd] in *; try congruence.
      all: injection E as _ <-; split; [assumption|]; intros [_ ?]; congruence.
  - unfold _check_driver_separation in E.
    destruct (check_driver_separation scen track ctx) as [[|]|e];
      rewrite ?Hsc in E; cbn [default] in E; injection E as _ <-.
    + right. left. repeat split; lia.
    + left. split; [reflexivity|]. intros [? _]. lia.
    + left. split; [reflexivity|]. intros [? _]. lia.
  - injection E as _ <-. left. split; [reflexivity|]. intros [? _]. lia.
Qed.

Lemma advance_scenario_none scen track ctx :
  scen !! obj_id track = None ->
  snd (advance_scenario scen track ctx) = scen.
Proof. intros E. unfold advance_scenario. now rewrite E. Qed.

Lemma wf_scenarios_empty : wf_scenarios ∅.
Proof. intros oid sc H. rewrite lookup_empty in H. discriminate. Qed.

Lemma wf_scenarios_insert scen oid sc :
  wf_scenarios scen ->
  playbook sc = "VBIED_DROPOFF"%string ->
  (state_index sc <= 3)%nat ->
  ((state_index sc < 2)%nat -> linked_obj_id sc = None) ->
  wf_scenarios (<[oid := sc]> scen).
Proof.
  intros Hwf Hpb Hidx Hl oid' sc' H.
  destruct (decide (oid' = oid)) as [->|Hne].
  - rewrite lookup_insert_eq in H. injection H as <-. auto.
  - rewrite lookup_insert_ne in H by congruence. eauto.
Qed.

Lemma writes_link_eq scen track ctx sc :
  start_scenario scen track ctx !! obj_id track = Some sc ->
  writes_link scen (track, ctx)
  = (state_index sc =? 1)%nat
    && match fst (_check_driver_exit (start_scenario scen track ctx) track ctx) with
       | Ok true => true
       | _ => false
       end.
Proof. intros E. unfold writes_link. cbn [fst snd]. now rewrite E. Qed.

(** One call of [update_scenarios] on a well-formed table. *)
Lemma update_scenarios_step scen track ctx :
  wf_scenarios scen ->
  wf_scenarios (scenario_step scen (track, ctx))
  /\ (forall oid, oid <> obj_id track ->
       scenario_step scen (track, ctx) !! oid = scen !! oid)
  /\ (forall sc, scen !! obj_id track = Some sc ->
       exists sc',
         scenario_step scen (track, ctx) !! obj_id track = Some sc'
         /\ (state_index sc <= state_index sc' <= S (state_index sc))%nat
         /\ ((linked_obj_id sc' = linked_obj_id sc
              /\ writes_link scen (track, ctx) = false)
             \/ (state_index sc = 1%nat /\ state_index sc' = 2%nat
                 /\ linked_obj_id sc = None /\ is_Some (linked_obj_id sc')
                 /\ writes_link scen (track, ctx) = true)))
  /\ (scen !! obj_id track = None ->
      writes_link scen (track, ctx) = false
      /\ linked (scenario_step scen (track, ctx)) (obj_id track) = None).
Proof.
  intros Hwf. unfold scenario_step, update_scenarios. cbn [fst snd].
  destruct (start_scenario_spec scen track ctx) as [Es|[Hnone Es]].
  - (* no scenario is started *)
    destruct (scen !! obj_id track) as [sc|] eqn:Hsc.
    + destruct (Hwf _ _ Hsc) as (Hpb & Hidx & Hlink).
      pose proof (writes_link_eq scen track ctx sc) as Hw.
      rewrite Es in Hw |- *. specialize (Hw Hsc).
      destruct (advance_scenario_spec scen track ctx sc Hsc Hpb)
        as [[-> Hno]|[(Hlt & Hne1 & ->)|(H1 & Hexit & other & ->)]].
      * split; [assumption|]. split; [reflexivity|]. split; [|discriminate].
        intros ? [= <-]. exists sc. split; [assumption|]. split; [lia|].
        left. split; [reflexivity|]. rewrite Hw.
        destruct (Nat.eqb_spec (state_index sc) 1); [|reflexivity].
        destruct (fst (_check_driver_exit scen track ctx)) as [[|]|];
          try reflexivity. exfalso. apply Hno. auto.
      * split.
        { apply wf_scenarios_insert; cbn; auto; try lia.
          intros ?. apply Hlink. lia. }
        split; [intros; now rewrite lookup_insert_ne by congruence|].
        split; [|discriminate].
        intros ? [= <-]. exists (advance sc). rewrite lookup_insert_eq.
        split; [reflexivity|]. split; [cbn; lia|].
        left. split; [reflexivity|]. rewrite Hw.
        destruct (Nat.eqb_spec (state_index sc) 1); [lia|reflexivity].
      * split.
        { apply wf_scenarios_insert; cbn; auto; try lia. }
        split; [intros; now rewrite lookup_insert_ne by congruence|].
        split; [|discriminate].
        intros ? [= <-]. exists (advance (set_linked sc other)).
        rewrite lookup_insert_eq.
        split; [reflexivity|]. split; [cbn; lia|].
        right. split; [assumption|]. split; [cbn; lia|].
        split; [apply Hlink; lia|]. split; [cbn; eauto|].
        rewrite Hw, Hexit, H1. reflexivity.
    + rewrite Es, (advance_scenario_none _ _ _ Hsc).
      split; [assumption|]. split; [reflexivity|]. split; [discriminate|].
      intros _. unfold writes_link, linked. cbn [fst snd].
      now rewrite Es, Hsc.
  - (* a scenario is started at state 0 *)
    set (fresh := mkScenario "VBIED_DROPOFF" 0 None) in *.
    assert (Hwf1 : wf_scenarios (<[obj_id track := fresh]> scen))
      by (apply wf_scenarios_insert; cbn; auto; lia).
    assert (Hf : <[obj_id track := fresh]> scen !! obj_id track = Some fresh)
      by apply lookup_insert_eq.
    pose proof (writes_link_eq scen track ctx fresh) as Hw.
    rewrite Es in Hw |- *. specialize (Hw Hf). cbn in Hw.
    rewrite Hnone.
    destruct (advance_scenario_spec _ track ctx fresh Hf eq_refl)
      as [[-> Hno]|[(Hlt & Hne1 & ->)|(H1 & _)]]; [| |discriminate].
    * split; [assumption|].
      split; [intros; now rewrite lookup_insert_ne by congruence|].
      split; [discriminate|]. intros _. split; [assumption|].
      unfold linked. now rewrite Hf.
    * rewrite insert_insert_eq.
      split; [apply wf_scenarios_insert; cbn; auto; lia|].
      split; [intros; now rewrite lookup_insert_ne by congruence|].
      split; [discriminate|]. intros _. split; [assumption|].
      unfold linked. now rewrite lookup_insert_eq.
Qed.

Lemma run_scenarios_app scen calls1 calls2 :
  run_scenarios scen (calls1 ++ calls2)
  = run_scenarios (run_scenarios scen calls1) calls2.
Proof. apply fold_left_app. Qed.

Lemma wf_run_scenarios calls scen :
  wf_scenarios scen -> wf_scenarios (run_scenarios scen calls).
Proof.
  revert scen. induction calls as [|[track ctx] calls IH]; intros scen Hwf;
    [assumption|].
  apply IH. now apply update_scenarios_step.
Qed.

(** The effect of one call on the scenario of an arbitrary object. *)
Lemma scenario_step_existing scen (c : scenario_call) oid sc :
  wf_scenarios scen ->
  scen !! oid = Some sc ->
  exists sc',
    scenario_step scen c !! oid = Some sc'
    /\ (state_index sc <= state_index sc' <= S (state_index sc))%nat
    /\ (forall p, linked_obj_id sc = Some p -> linked_obj_id sc' = Some p)
    /\ (linked_obj_id sc' <> linked_obj_id sc ->
        obj_id (fst c) = oid /\ writes_link scen c = true
        /\ linked_obj_id sc = None)
    /\ (obj_id (fst c) = oid -> writes_link scen c = true ->
        state_index sc' = 2%nat).
Proof.
  intros Hwf Hsc. destruct c as [track ctx]. cbn [fst].
  destruct (update_scenarios_step scen track ctx Hwf) as (_ & Hfr & Hex & _).
  destruct (decide (oid = obj_id track)) as [->|Hne].
  - destruct (Hex _ Hsc) as (sc' & Hsc' & Hidx & [[Hl Hw]|(H1 & H2 & Hn & Hs & Hw)]).
    + exists sc'. split; [assumption|]. split; [assumption|].
      split; [congruence|]. split; [congruence|]. congruence.
    + exists sc'. split; [assumption|]. split; [assumption|].
      split; [congruence|]. split; auto.
  - exists sc. rewrite (Hfr _ Hne). split; [assumption|]. split; [lia|].
    split; [auto|]. split; [congruence|]. congruence.
Qed.

Lemma scenario_step_absent scen (c : scenario_call) oid :
  wf_scenarios scen ->
  scen !! oid = None ->
  linked (scenario_step scen c) oid = None
  /\ (obj_id (fst c) = oid -> writes_link scen c = false).
Proof.
  intros Hwf Hsc. destruct c as [track ctx]. cbn [fst].
  destruct (update_scenarios_step scen track ctx Hwf) as (_ & Hfr & _ & Hno).
  destruct (decide (oid = obj_id track)) as [->|Hne].
  - destruct (Hno Hsc). auto.
  - split; [|congruence]. unfold linked. now rewrite (Hfr _ Hne), Hsc.
Qed.

Lemma linked_persists calls scen oid p :
  wf_scenarios scen ->
  linked scen oid = Some p ->
  linked (run_scenarios scen calls) oid = Some p.
Proof.
  revert scen. induction calls as [|c calls IH]; intros scen Hwf Hl;
    [assumption|].
  cbn. apply IH; [destruct c; now apply update_scenarios_step|].
  unfold linked in Hl |- *.
  destruct (scen !! oid) as [sc|] eqn:Hsc; [|discriminate].
  destruct (scenario_step_existing scen c oid sc Hwf Hsc)
    as (sc' & -> & _ & Hkeep & _).
  cbn in *. auto.
Qed.

Lemma state_index_grows calls scen oid sc :
  wf_scenarios scen ->
  scen !! oid = Some sc ->
  exists sc',
    run_scenarios scen calls !! oid = Some sc'
    /\ (state_index sc <= state_index sc')%nat.
Proof.
  revert scen sc. induction calls as [|c calls IH]; intros scen sc Hwf Hsc.
  - exists sc. split; [assumption|lia].
  - destruct (scenario_step_existing scen c oid sc Hwf Hsc)
      as (sc1 & Hsc1 & Hidx & _).
    destruct (IH (scenario_step scen c) sc1) as (sc' & Hsc' & Hle);
      [destruct c; now apply update_scenarios_step|assumption|].
    exists sc'. split; [exact Hsc'|lia].
Qed.

Lemma no_link_write_after calls scen oid sc :
  wf_scenarios scen ->
  scen !! oid = Some sc ->
  (2 <= state_index sc)%nat ->
  count_link_writes scen oid calls = 0%nat.
Proof.
  revert scen sc. induction calls as [|c calls IH]; intros scen sc Hwf Hsc Hge;
    [reflexivity|].
  cbn [count_link_writes].
  destruct (scenario_step_existing scen c oid sc Hwf Hsc)
    as (sc1 & Hsc1 & Hidx & _ & _ & _).
  rewrite (IH (scenario_step scen c) sc1);
    [|destruct c; now apply update_scenarios_step|assumption|lia].
  destruct (bool_decide _ && _) eqn:E; [|reflexivity].
  apply andb_prop in E as [Ho Hw]. apply bool_decide_eq_true in Ho.
  destruct c as [track ctx]. cbn [fst] in Ho. subst oid.
  destruct (update_scenarios_step scen track ctx Hwf) as (_ & _ & Hex & _).
  destruct (Hex _ Hsc) as (? & _ & _ & [[_ Hw']|(H1 & _)]); [congruence|lia].
Qed.

Lemma link_written_at_most_once calls scen oid :
  wf_scenarios scen ->
  (count_link_writes scen oid calls <= 1)%nat.
Proof.
  revert scen. induction calls as [|c calls IH]; intros scen Hwf; [cbn; lia|].
  cbn [count_link_writes].
  assert (Hwf1 : wf_scenarios (scenario_step scen c))
    by (destruct c; now apply update_scenarios_step).
  destruct (bool_decide _ && _) eqn:E; [|specialize (IH _ Hwf1); lia].
  apply andb_prop in E as [Ho Hw]. apply bool_decide_eq_true in Ho.
  destruct (scen !! oid) as [sc|] eqn:Hsc.
  - destruct (scenario_step_existing scen c oid sc Hwf Hsc)
      as (sc1 & Hsc1 & _ & _ & _ & H2).
    rewrite (no_link_write_after calls _ oid sc1 Hwf1 Hsc1); [lia|].
    rewrite (H2 Ho Hw). lia.
  - destruct (scenario_step_absent scen c oid Hwf Hsc) as [_ Hno].
    rewrite (Hno Ho) in Hw. discriminate.
Qed.

End Scenarios.

(** C4. Along every sequence of [update_scenarios] calls, the
    [state_index] of an active scenario does not decrease, grows by at most
    one per call, and stays within the number of triggers of its playbook. *)
Theorem state_index_monotone
    (calls more : list Props.scenario_call) (c : Props.scenario_call)
    (oid : Z) (sc : BehavioralEngine.Scenario) :
  Props.run_scenarios ∅ calls !! oid = Some sc ->
  (exists sc' pb,
      Props.run_scenarios ∅ (calls ++ [c]) !! oid = Some sc'
      /\ get (BehavioralEngine.playbook sc') BehavioralEngine.playbooks = Some pb
      /\ (BehavioralEngine.state_index sc <= BehavioralEngine.state_index sc'
          <= S (BehavioralEngine.state_index sc))%nat
      /\ (BehavioralEngine.state_index sc'
          <= length (BehavioralEngine.triggers pb))%nat)
  /\ (exists sc'',
        Props.run_scenarios ∅ (calls ++ more) !! oid = Some sc''
        /\ (BehavioralEngine.state_index sc
            <= BehavioralEngine.state_index sc'')%nat).
Proof.
  intros Hsc.
  assert (Hwf : Props.wf_scenarios (Props.run_scenarios ∅ calls))
    by apply wf_run_scenarios, wf_scenarios_empty.
  split.
  - destruct (scenario_step_existing _ c oid sc Hwf Hsc) as (sc' & Hsc' & Hidx & _).
    assert (Hwf' : Props.wf_scenarios (Props.run_scenarios ∅ (calls ++ [c])))
      by apply wf_run_scenarios, wf_scenarios_empty.
    rewrite run_scenarios_app. cbn [Props.run_scenarios fold_left].
    exists sc', BehavioralEngine.vbied_dropoff.
    split; [exact Hsc'|].
    rewrite run_scenarios_app in Hwf'. cbn [Props.run_scenarios fold_left] in Hwf'.
    destruct (Hwf' _ _ Hsc') as (-> & Hle & _).
    split; [reflexivity|]. split; [exact Hidx|exact Hle].
  - rewrite run_scenarios_app. now apply state_index_grows.
Qed.

Lemma state_index_monotone_witness :
  (exists sc' pb,
      Props.run_scenarios ∅
        ([(Simulation.van_stopped, Simulation.context_alone)]
           ++ [(Simulation.van_stopped, Simulation.context_exit)]) !! 101
      = Some sc'
      /\ get (BehavioralEngine.playbook sc') BehavioralEngine.playbooks = Some pb
      /\ (1 <= BehavioralEngine.state_index sc' <= 2)%nat
      /\ (BehavioralEngine.state_index sc'
          <= length (BehavioralEngine.triggers pb))%nat)
  /\ (exists sc'',
        Props.run_scenarios ∅
          ([(Simulation.van_stopped, Simulation.context_alone)]
             ++ [(Simulation.van_stopped, Simulation.context_alone);
                 (Simulation.van_stopped, Simulation.context_exit)]) !! 101
        = Some sc''
        /\ (1 <= BehavioralEngine.state_index sc'')%nat).
Proof.
  apply (state_index_monotone
           [(Simulation.van_stopped, Simulation.context_alone)]
           [(Simulation.van_stopped, Simulation.context_alone);
            (Simulation.van_stopped, Simulation.context_exit)]
           (Simulation.van_stopped, Simulation.context_exit)
           101
           (BehavioralEngine.mkScenario "VBIED_DROPOFF" 1 None)).
  vm_compute. reflexivity.
Defined.

(** C7. Along every sequence of [update_scenarios] calls, the
    ['linked_obj_id'] of a scenario is assigned at most once; once it holds
    a value it keeps that value; and it changes only in a call whose
    driver-exit trigger succeeds, which finds it unset. *)
Theorem linked_object_written_once
    (calls1 calls2 : list Props.scenario_call) (oid : Z) :
  (Props.count_link_writes ∅ oid (calls1 ++ calls2) <= 1)%nat
  /\ (forall p,
        Props.linked (Props.run_scenarios ∅ calls1) oid = Some p ->
        Props.linked (Props.run_scenarios ∅ (calls1 ++ calls2)) oid = Some p)
  /\ (forall c,
        Props.linked (Props.run_scenarios ∅ (calls1 ++ [c])) oid
        <> Props.linked (Props.run_scenarios ∅ calls1) oid ->
        obj_id (fst c) = oid
        /\ Props.writes_link (Props.run_scenarios ∅ calls1) c = true
        /\ Props.linked (Props.run_scenarios ∅ calls1) oid = None).
Proof.
  assert (Hwf : Props.wf_scenarios (Props.run_scenarios ∅ calls1))
    by apply wf_run_scenarios, wf_scenarios_empty.
  split; [apply link_written_at_most_once, wf_scenarios_empty|].
  split.
  - intros p Hp. rewrite run_scenarios_app. now apply linked_persists.
  - intros c. rewrite run_scenarios_app. cbn [Props.run_scenarios fold_left].
    unfold Props.linked at 1 2.
    destruct (Props.run_scenarios ∅ calls1 !! oid) as [sc|] eqn:Hsc.
    + destruct (scenario_step_existing _ c oid sc Hwf Hsc)
        as (sc' & Hsc' & _ & _ & Hch & _).
      rewrite Hsc'. cbn. intros Hne. destruct (Hch Hne) as (? & ? & Hn).
      repeat split; try assumption. unfold Props.linked. now rewrite Hsc.
    + destruct (scenario_step_absent _ c oid Hwf Hsc) as [Hn _].
      unfold Props.linked in Hn. rewrite Hn. cbn. congruence.
Qed.

Lemma linked_object_written_once_witness :
  (Props.count_link_writes ∅ 101
     ([(Simulation.van_stopped, Simulation.context_alone);
       (Simulation.van_stopped, Simulation.context_exit)]
        ++ [(Simulation.van_stopped, Simulation.context_exit);
            (Simulation.van_stopped, Simulation.context_alone)]) <= 1)%nat
  /\ Props.linked
       (Props.run_scenarios ∅
          ([(Simulation.van_stopped, Simulation.context_alone);
            (Simulation.van_stopped, Simulation.context_exit)]
             ++ [(Simulation.van_stopped, Simulation.context_exit);
                 (Simulation.van_stopped, Simulation.context_alone)])) 101
     = Some 202.
Proof.
  destruct (linked_object_written_once
              [(Simulation.van_stopped, Simulation.context_alone);
               (Simulation.van_stopped, Simulation.context_exit)]
              [(Simulation.van_stopped, Simulation.context_exit);
               (Simulation.van_stopped, Simulation.context_alone)]
              101) as (Hcount & Hkeep & _).
  split; [exact Hcount|].
  apply Hkeep. vm_compute. reflexivity.
Defined.

(** ** Layer 4: beliefs *)

Section Beliefs.
Import ThreatSynthesizer Props.
Implicit Types (tp : dict Z (dict string float)) (ev : Evidence).

Lemma get_values {K V : Type} `{EqDecision K} (d : dict K V) (k : K) (v : V) :
  get k d = Some v -> In v (values d).
Proof. intros H. apply get_In in H. now apply (in_map snd) in H. Qed.

(** The evidence always selects one of the five multipliers. *)
Lemma multiplier_cases ev :
  exists m, multiplier ev = Ok m /\ In m multipliers.
Proof.
  unfold multiplier. destruct (ev_playbook_info ev) as [info|].
  - destruct (get (BehavioralEngine.name info) likelihoods) as [table|] eqn:Et.
    + cbn [likelihoods get] in Et.
      destruct (decide _) in Et; [|discriminate]. injection Et as <-.
      eexists. split; [reflexivity|].
      destruct (get _ _) as [v|] eqn:Ev; cbn [default].
      * apply get_values in Ev. cbn in Ev.
        destruct Ev as [<-|[<-|[<-|[<-|[]]]]]; vm_compute; tauto.
      * vm_compute; tauto.
    + eexists. split; [reflexivity|]. vm_compute; tauto.
  - destruct (gtb _ _).
    + eexists. split; [reflexivity|]. vm_compute; tauto.
    + eexists. split; [reflexivity|]. vm_compute; tauto.
Qed.

Lemma stored_beliefs_closed : closed_under_update stored_beliefs = true.
Proof. vm_compute. reflexivity. Qed.

Lemma stored_beliefs_step (p m : float) :
  In p stored_beliefs -> In m multipliers ->
  In (cap (PrimFloat.mul p m)) stored_beliefs
  /\ PrimFloat.leb p (cap (PrimFloat.mul p m)) = true
  /\ PrimFloat.leb (cap (PrimFloat.mul p m)) 0.999%float = true.
Proof.
  intros Hp Hm. pose proof stored_beliefs_closed as H.
  unfold closed_under_update in H.
  rewrite forallb_forall in H. specialize (H _ Hp).
  apply andb_prop in H as [_ H].
  rewrite forallb_forall in H. specialize (H _ Hm).
  cbv zeta in H. apply andb_prop in H as [H H3]. apply andb_prop in H as [H1 H2].
  apply (proj1 (FloatOrder.float_mem_In _ stored_beliefs)) in H1.
  split; [exact H1|]. split; [exact H2|exact H3].
Qed.

Lemma stored_beliefs_bounds (p : float) :
  In p stored_beliefs ->
  PrimFloat.leb p p = true /\ PrimFloat.leb p 0.999%float = true.
Proof.
  intros Hp. pose proof stored_beliefs_closed as H.
  unfold closed_under_update in H.
  rewrite forallb_forall in H. specialize (H _ Hp).
  apply andb_prop in H as [H _]. apply andb_prop in H as [H1 H2].
  split; [exact H1|exact H2].
Qed.

Lemma prior_stored : In 0.0001%float stored_beliefs.
Proof.
  apply (proj1 (FloatOrder.float_mem_In 0.0001%float stored_beliefs)).
  vm_compute. reflexivity.
Qed.

Local Opaque stored_beliefs.

Lemma wf_beliefs_set tp oid p :
  wf_beliefs tp -> In p stored_beliefs ->
  wf_beliefs (set oid [("VBIED_DROPOFF"%string, p)] tp).
Proof.
  intros Hwf Hp o threats Hin. apply set_In in Hin as [E|Hin]; [|eauto].
  injection E as -> ->. eauto.
Qed.

(** One call of [update_threat_probabilities] on a well-formed table: the
    belief of the object (the prior if it is new) is multiplied and
    capped, every other entry is kept. *)
Lemma update_threat_probabilities_step tp oid ev :
  wf_beliefs tp ->
  exists p m,
    (belief tp oid "VBIED_DROPOFF" = Some p
     \/ (get oid tp = None /\ p = 0.0001%float))
    /\ In p stored_beliefs
    /\ multiplier ev = Ok m /\ In m multipliers
    /\ get oid (snd (update_threat_probabilities tp oid ev))
       = Some [("VBIED_DROPOFF"%string, cap (PrimFloat.mul p m))]
    /\ (forall o, o <> oid ->
          get o (snd (update_threat_probabilities tp oid ev)) = get o tp)
    /\ wf_beliefs (snd (update_threat_probabilities tp oid ev)).
Proof.
  intros Hwf. destruct (multiplier_cases ev) as (m & Em & Hm).
  unfold update_threat_probabilities. rewrite Em.
  assert (exists p tp0,
             (if negb (mem oid tp) then set oid prior tp else tp) = tp0
             /\ get oid tp0 = Some [("VBIED_DROPOFF"%string, p)]
             /\ (belief tp oid "VBIED_DROPOFF" = Some p
                 \/ (get oid tp = None /\ p = 0.0001%float))
             /\ In p stored_beliefs /\ wf_beliefs tp0
             /\ (forall o, o <> oid -> get o tp0 = get o tp))
    as (p & tp0 & -> & Eg & Hp & Hs & Hwf0 & Hfr).
  { unfold mem, belief. destruct (get oid tp) as [threats|] eqn:Eg; cbn [negb].
    - destruct (Hwf _ _ (get_In _ _ _ Eg)) as (p & -> & Hp).
      exists p, tp. split; [reflexivity|]. split; [exact Eg|].
      split; [left; reflexivity|]. split; [exact Hp|].
      split; [exact Hwf|reflexivity].
    - exists 0.0001%float, (set oid prior tp).
      split; [reflexivity|]. split; [apply get_set_eq|].
      split; [right; auto|]. split; [apply prior_stored|].
      split; [apply wf_beliefs_set; [assumption|apply prior_stored]|].
      intros o Ho. now apply get_set_ne. }
  destruct (stored_beliefs_step p m Hs Hm) as (Hin & _ & _).
  rewrite Eg. unfold _normalize. rewrite get_set_eq. cbn [snd].
  exists p, m. split; [exact Hp|]. split; [exact Hs|].
  split; [reflexivity|]. split; [exact Hm|].
  split; [apply get_set_eq|].
  split.
  - intros o Ho. rewrite !get_set_ne by assumption. auto.
  - change (wf_beliefs
              (set oid [("VBIED_DROPOFF"%string, cap (PrimFloat.mul p m))]
                 (set oid [("VBIED_DROPOFF"%string, PrimFloat.mul p m)] tp0))).
    rewrite set_set_eq.
    apply wf_beliefs_set; assumption.
Qed.

Lemma wf_beliefs_nil : wf_beliefs [].
Proof. intros ? ? []. Qed.

Lemma wf_run_beliefs calls tp :
  wf_beliefs tp -> wf_beliefs (run_beliefs tp calls).
Proof.
  revert tp. induction calls as [|[o e] calls IH]; intros tp Htp; [assumption|].
  apply IH.
  destruct (update_threat_probabilities_step tp o e Htp)
    as (? & ? & _ & _ & _ & _ & _ & _ & H). exact H.
Qed.

End Beliefs.

(** C3. Along every sequence of [update_threat_probabilities] calls, a
    stored belief is never below its previous value: a call for another
    object leaves it alone, a call for the object stores the product with
    the multiplier of the evidence, replaced by 0.999 when it exceeds
    0.999. *)
Theorem belief_never_decreases
    (calls : list Props.belief_call) (c : Props.belief_call)
    (oid : Z) (threat : string) (p : float) :
  Props.belief (Props.run_beliefs [] calls) oid threat = Some p ->
  exists p',
    Props.belief (Props.run_beliefs [] (calls ++ [c])) oid threat = Some p'
    /\ PrimFloat.leb p p' = true
    /\ PrimFloat.leb p' 0.999%float = true
    /\ (fst c <> oid -> p' = p)
    /\ (fst c = oid ->
        exists m,
          ThreatSynthesizer.multiplier (snd c) = Ok m
          /\ p' = ThreatSynthesizer.cap (PrimFloat.mul p m)).
Proof.
  assert (Hwf : Props.wf_beliefs (Props.run_beliefs [] calls))
    by apply wf_run_beliefs, wf_beliefs_nil.
  unfold Props.run_beliefs at 2. rewrite fold_left_app.
  fold (Props.run_beliefs [] calls). cbn [fold_left].
  set (tp := Props.run_beliefs [] calls) in *. destruct c as [o ev].
  unfold Props.belief_step. cbn [fst snd].
  destruct (update_threat_probabilities_step tp o ev Hwf)
    as (q & m & Hq & Hs & Em & Hm & Eg & Hfr & _).
  intros Hp. unfold Props.belief in Hp |- *.
  destruct (get oid tp) as [threats|] eqn:Et; [|discriminate].
  destruct (Hwf _ _ (get_In _ _ _ Et)) as (p0 & -> & Hp0).
  apply (get_singleton (V := float)) in Hp as [-> ->].
  destruct (stored_beliefs_bounds p0 Hp0) as (Hrefl & Hbound).
  destruct (decide (o = oid)) as [->|Hne].
  - rewrite Eg. destruct Hq as [Hq|[Hq _]]; [|congruence].
    unfold Props.belief in Hq. rewrite Et in Hq.
    apply (get_singleton (V := float)) in Hq as [_ ->].
    destruct (stored_beliefs_step p0 m Hp0 Hm) as (_ & Hle & Hcap).
    exists (ThreatSynthesizer.cap (PrimFloat.mul p0 m)).
    split; [reflexivity|]. split; [exact Hle|]. split; [exact Hcap|].
    split; [congruence|]. intros _. exists m. split; [exact Em|reflexivity].
  - rewrite (Hfr oid) by congruence. rewrite Et.
    exists p0. split; [reflexivity|]. split; [exact Hrefl|].
    split; [exact Hbound|]. split; [reflexivity|congruence].
Qed.

Lemma belief_never_decreases_witness :
  exists p',
    Props.belief
      (Props.run_beliefs []
         ([(101, Simulation.evidence_anomaly)] ++ [(101, Simulation.evidence_stopped)]))
      101 "VBIED_DROPOFF" = Some p'
    /\ PrimFloat.leb (PrimFloat.mul 0.0001 3.0) p' = true
    /\ PrimFloat.leb p' 0.999%float = true
    /\ (101 <> 101 -> p' = PrimFloat.mul 0.0001 3.0)
    /\ (101 = 101 ->
        exists m,
          ThreatSynthesizer.multiplier Simulation.evidence_stopped = Ok m
          /\ p' = ThreatSynthesizer.cap (PrimFloat.mul (PrimFloat.mul 0.0001 3.0) m)).
Proof.
  apply (belief_never_decreases
           [(101, Simulation.evidence_anomaly)]
           (101, Simulation.evidence_stopped)
           101 "VBIED_DROPOFF" (PrimFloat.mul 0.0001 3.0)).
  vm_compute. reflexivity.
Defined.

(** ** Layer 4: the alert list *)

Section Alerts.
Import ThreatSynthesizer Props.
Implicit Types (a b : Alert) (l : list Alert).

Lemma insert_desc_perm a l : Permutation (insert_desc a l) (a :: l).
Proof.
  induction l as [|b l IH]; cbn; [reflexivity|].
  destruct (PrimFloat.ltb _ _); [|reflexivity].
  rewrite IH. apply perm_swap.
Qed.

Lemma sorted_desc_perm l : Permutation (sorted_desc l) l.
Proof.
  induction l as [|a l IH]; cbn; [reflexivity|].
  rewrite insert_desc_perm. now constructor.
Qed.

Lemma insert_desc_descending a l :
  ordinary a -> Forall ordinary l ->
  descending l -> descending (insert_desc a l).
Proof.
  intros Ha Hl Hs. induction Hs as [|b l Hs IH Hb]; cbn.
  - repeat constructor.
  - apply Forall_cons_iff in Hl as [Hob Hl].
    destruct (PrimFloat.ltb (probability a) (probability b)) eqn:E.
    + constructor; [now apply IH|].
      apply List.Forall_forall. intros x Hx.
      apply (Permutation_in _ (insert_desc_perm a l)) in Hx as [<-|Hx].
      * now apply FloatOrder.ltb_asym.
      * rewrite List.Forall_forall in Hb. now apply Hb.
    + constructor; [now constructor|].
      constructor; [assumption|].
      apply List.Forall_forall. intros c Hc.
      rewrite List.Forall_forall in Hb.
      apply (FloatOrder.ltb_false_trans _ (probability b)); auto.
Qed.

Lemma sorted_desc_descending l :
  Forall ordinary l -> descending (sorted_desc l).
Proof.
  induction 1 as [|a l Ha Hl IH]; cbn; [constructor|].
  apply insert_desc_descending; [assumption| |assumption].
  apply List.Forall_forall. intros x Hx.
  apply (Permutation_in _ (sorted_desc_perm l)) in Hx.
  rewrite List.Forall_forall in Hl. now apply Hl.
Qed.

(** The sort is stable: alerts of equal probability keep their order. *)
Lemma insert_desc_stable p a l :
  with_probability p (insert_desc a l) = with_probability p (a :: l).
Proof.
  induction l as [|b l IH]; [reflexivity|].
  cbn [insert_desc].
  destruct (PrimFloat.ltb (probability a) (probability b)) eqn:E;
    [|reflexivity].
  unfold with_probability in *. cbn [List.filter] in *. rewrite IH.
  destruct (PrimFloat.Leibniz.eqb (probability a) p) eqn:Ea; [|reflexivity].
  destruct (PrimFloat.Leibniz.eqb (probability b) p) eqn:Eb; [|reflexivity].
  apply FloatAxioms.Leibniz.eqb_spec in Ea, Eb.
  rewrite Ea, Eb, FloatOrder.ltb_irrefl in E. discriminate.
Qed.

Lemma sorted_desc_stable p l :
  with_probability p (sorted_desc l) = with_probability p l.
Proof.
  induction l as [|a l IH]; [reflexivity|].
  cbn [sorted_desc fold_right]. rewrite insert_desc_stable.
  unfold with_probability in *. cbn [List.filter].
  fold (sorted_desc l). now rewrite IH.
Qed.

(** What the two nested loops collect. *)
Lemma collect_alerts_In (tp : dict Z (dict string float)) a :
  In a (collect_alerts tp)
  <-> exists threats,
        In (alert_obj_id a, threats) tp
        /\ In (threat_type a, probability a) threats
        /\ gtb (probability a) CONFIG.ALERT_PROBABILITY_THRESHOLD = true.
Proof.
  unfold collect_alerts. rewrite in_flat_map. split.
  - intros ([oid threats] & Hin & Ha). rewrite in_flat_map in Ha.
    destruct Ha as ([threat prob] & Hin' & Ha).
    destruct (gtb prob _) eqn:E; [|destruct Ha].
    destruct Ha as [<-|[]]. cbn. eauto.
  - intros (threats & Hin & Hin' & E). exists (alert_obj_id a, threats).
    split; [assumption|]. rewrite in_flat_map.
    exists (threat_type a, probability a). split; [assumption|].
    rewrite E. left. now destruct a.
Qed.

Lemma collect_alerts_ordinary (tp : dict Z (dict string float)) :
  Forall ordinary (collect_alerts tp).
Proof.
  apply List.Forall_forall. intros a Ha.
  apply collect_alerts_In in Ha as (_ & _ & _ & E).
  exact (FloatOrder.ltb_not_nan_r _ _ E).
Qed.

End Alerts.

(** C5. [get_prioritized_alerts] returns exactly the stored (object,
    threat, probability) entries whose probability exceeds the alert
    threshold, each once, in descending order of probability, entries of
    equal probability in the order of the table; it reads the table only, so
    a second call on the same table returns the same list. *)
Theorem prioritized_alerts_contract (tp : dict Z (dict string float)) :
  (forall a,
      In a (ThreatSynthesizer.get_prioritized_alerts tp)
      <-> exists threats,
            In (ThreatSynthesizer.alert_obj_id a, threats) tp
            /\ In (ThreatSynthesizer.threat_type a,
                   ThreatSynthesizer.probability a) threats
            /\ gtb (ThreatSynthesizer.probability a)
                 CONFIG.ALERT_PROBABILITY_THRESHOLD = true)
  /\ Permutation (ThreatSynthesizer.get_prioritized_alerts tp)
       (ThreatSynthesizer.collect_alerts tp)
  /\ Props.descending (ThreatSynthesizer.get_prioritized_alerts tp)
  /\ (forall p,
        Props.with_probability p (ThreatSynthesizer.get_prioritized_alerts tp)
        = Props.with_probability p (ThreatSynthesizer.collect_alerts tp))
  /\ (forall first second,
        first = ThreatSynthesizer.get_prioritized_alerts tp ->
        second = ThreatSynthesizer.get_prioritized_alerts tp ->
        first = second).
Proof.
  unfold ThreatSynthesizer.get_prioritized_alerts.
  split; [|split; [|split; [|split]]].
  - intros a. rewrite <- collect_alerts_In. split; intros H.
    + now rewrite <- (sorted_desc_perm _).
    + now rewrite (sorted_desc_perm _).
  - apply sorted_desc_perm.
  - apply sorted_desc_descending, collect_alerts_ordinary.
  - intros p. apply sorted_desc_stable.
  - congruence.
Qed.

(** ** The orchestrator *)

(** C1. After the seven frames of the reference feed, the belief of object
    101 for VBIED_DROPOFF exceeds the alert threshold 0.75, and the alert
    list returned for the frame at t = 7 contains (101, VBIED_DROPOFF). *)
Theorem reference_feed_alert :
  exists alerts_by_frame last p,
    fst (ThreatDetector.run ThreatDetector.init Simulation.simulation_api_feed)
    = Ok alerts_by_frame
    /\ Props.belief
         (ThreatDetector.threat_probabilities
            (snd (ThreatDetector.run ThreatDetector.init
                    Simulation.simulation_api_feed)))
         101 "VBIED_DROPOFF" = Some p
    /\ gtb p CONFIG.ALERT_PROBABILITY_THRESHOLD = true
    /\ nth_error alerts_by_frame 6 = Some last
    /\ length alerts_by_frame = 7%nat
    /\ In {| ThreatSynthesizer.alert_obj_id := 101;
             ThreatSynthesizer.threat_type := "VBIED_DROPOFF";
             ThreatSynthesizer.probability := p |} last.
Proof.
  eexists. eexists. exists 0.999%float.
  split; [vm_compute; reflexivity|].
  split; [vm_compute; reflexivity|].
  split; [vm_compute; reflexivity|].
  split; [reflexivity|].
  split; [reflexivity|].
  left. reflexivity.
Qed.

Section MalformedInput.
Import ThreatDetector Props.

Lemma update_track_missing_field tracks d time :
  missing_field tracks d -> update_track tracks d time = Raise KeyError.
Proof.
  unfold update_track.
  intros [H|[H|(oid & Ho & Hm & Hl)]].
  - now rewrite H.
  - rewrite H. now destruct (det_obj_id d).
  - rewrite Ho. cbn [subscript Py.bind].
    destruct (det_bbox d); [|reflexivity].
    cbn [subscript Py.bind]. now rewrite Hm, Hl.
Qed.

Lemma update_tracks_app tracks dets1 dets2 time tracks1 :
  _update_tracks tracks dets1 time = (Ok tt, tracks1) ->
  _update_tracks tracks (dets1 ++ dets2) time
  = _update_tracks tracks1 dets2 time.
Proof.
  revert tracks. induction dets1 as [|d dets1 IH]; intros tracks; cbn.
  - now intros [= ->].
  - destruct (update_track tracks d time); [apply IH|discriminate].
Qed.

End MalformedInput.

(** C9, as stated, fails: a frame whose first detection lacks ['obj_id']
    raises [KeyError], and the well-formed detection behind it is not
    applied, whereas the frame without the malformed detection applies it. *)
Lemma malformed_detection_aborts_frame :
  ~ Props.well_formed_applied ThreatDetector.init Simulation.malformed_frame
  /\ fst (ThreatDetector.process_frame_data ThreatDetector.init
            Simulation.malformed_frame) = Raise KeyError
  /\ get 7 (ThreatDetector.tracked_objects
              (snd (ThreatDetector.process_frame_data ThreatDetector.init
                      Simulation.malformed_frame))) = None
  /\ Props.well_formed_applied ThreatDetector.init Simulation.repaired_frame.
Proof.
  split; [|split; [|split]].
  - intros H.
    destruct (H (Simulation.det 7 "car" (820, 240, 60, 40)) 7)
      as (track & Ht & _).
    + right. left. reflexivity.
    + reflexivity.
    + eexists; reflexivity.
    + eexists; reflexivity.
    + vm_compute in Ht. discriminate.
  - vm_compute. reflexivity.
  - vm_compute. reflexivity.
  - intros d oid [<-|[]] [= <-] _ _. eexists. split; vm_compute; reflexivity.
Qed.

(** C9, amended. When the detections before a malformed one are applied
    without error, [process_frame_data] raises [KeyError] at the malformed
    detection: the track store holds the effect of the detections before
    it and nothing of it or of those behind it, and neither the scenario
    table nor the belief table is touched. *)
Theorem malformed_detection_raises
    (self : ThreatDetector.t) (time : float)
    (dets1 dets2 : list Detection) (bad : Detection)
    (tracks1 : dict Z TrackedObject) :
  ThreatDetector._update_tracks (ThreatDetector.tracked_objects self) dets1 time
  = (Ok tt, tracks1) ->
  Props.missing_field tracks1 bad ->
  ThreatDetector.process_frame_data self (mkFrame time (dets1 ++ bad :: dets2))
  = (Raise KeyError,
     {| ThreatDetector.tracked_objects := tracks1;
        ThreatDetector.baseline_model := ThreatDetector.baseline_model self;
        ThreatDetector.active_scenarios := ThreatDetector.active_scenarios self;
        ThreatDetector.threat_probabilities :=
          ThreatDetector.threat_probabilities self |}).
Proof.
  intros H1 Hbad. unfold ThreatDetector.process_frame_data.
  cbn [timestamp detections].
  rewrite (update_tracks_app _ _ _ _ _ H1). cbn [ThreatDetector._update_tracks].
  now rewrite (update_track_missing_field _ _ _ Hbad).
Qed.

Lemma malformed_detection_raises_witness :
  ThreatDetector.process_frame_data ThreatDetector.init
    (mkFrame 1.0%float
       ([Simulation.det 7 "car" (820, 240, 60, 40)]
          ++ {| det_obj_id := Some 8; det_label := None;
                det_bbox := Some (100, 240, 60, 50) |}
          :: [Simulation.det 9 "van" (10, 240, 60, 50)]))
  = (Raise KeyError,
     {| ThreatDetector.tracked_objects :=
          [(7, mkTrack 7 "car" [mkSample (850, 260) 1.0%float] 1.0%float)];
        ThreatDetector.baseline_model :=
          ThreatDetector.baseline_model ThreatDetector.init;
        ThreatDetector.active_scenarios :=
          ThreatDetector.active_scenarios ThreatDetector.init;
        ThreatDetector.threat_probabilities :=
          ThreatDetector.threat_probabilities ThreatDetector.init |}).
Proof.
  apply (malformed_detection_raises ThreatDetector.init 1.0%float
           [Simulation.det 7 "car" (820, 240, 60, 40)]
           [Simulation.det 9 "van" (10, 240, 60, 50)]
           {| det_obj_id := Some 8; det_label := None;
              det_bbox := Some (100, 240, 60, 50) |}).
  - reflexivity.
  - right. right. exists 8. repeat split.
Defined.

(** ** A calm vehicle never alerts *)

Section DictKeys.
Context {K V : Type} `{EqDecision K}.
Implicit Types (d : dict K V) (k : K) (v : V).

Lemma get_None_keys d k : get k d = None <-> ~ In k (keys d).
Proof.
  induction d as [|[k' v'] d IH]; simpl; [tauto|].
  destruct (decide (k = k')) as [->|Hne].
  - split; [discriminate|]. intros Hn. exfalso. apply Hn. now left.
  - rewrite IH. split; [intros Hn [E|Hin]; [congruence|tauto]|tauto].
Qed.

Lemma keys_set d k v :
  keys (set k v d) = if mem k d then keys d else keys d ++ [k].
Proof.
  unfold mem. induction d as [|[k' v'] d IH]; simpl; [reflexivity|].
  destruct (decide (k = k')) as [->|Hne]; simpl; [reflexivity|].
  rewrite IH. now destruct (get k d).
Qed.

Lemma NoDup_keys_set d k v : NoDup (keys d) -> NoDup (keys (set k v d)).
Proof.
  intros Hd. rewrite keys_set. unfold mem.
  destruct (get k d) eqn:E; [assumption|].
  apply get_None_keys in E.
  apply NoDup_app. split; [assumption|]. split.
  - intros x Hx Hin%list_elem_of_singleton.
    subst x. apply E. now apply list_elem_of_In.
  - apply NoDup_singleton.
Qed.

Lemma NoDup_keys_get d k v : NoDup (keys d) -> In (k, v) d -> get k d = Some v.
Proof.
  induction d as [|[k' v'] d IH]; simpl; [tauto|].
  intros Hd [E|Hin].
  - injection E as -> ->. now rewrite decide_True.
  - apply NoDup_cons in Hd as [Hn Hd].
    rewrite decide_False; [now apply IH|].
    intros ->. apply Hn. apply list_elem_of_In.
    now apply (in_map fst) in Hin.
Qed.
End DictKeys.

Section CalmVehicle.
Import BehavioralEngine ThreatSynthesizer ThreatDetector Props.

Lemma store_wf_set tracks k tr :
  store_wf tracks -> obj_id tr = k -> store_wf (set k tr tracks).
Proof.
  intros [Hnd Hk] Ho. split; [now apply NoDup_keys_set|].
  intros k' tr' Hin. apply set_In in Hin as [E|Hin]; [|auto].
  injection E as -> ->. assumption.
Qed.

Lemma update_track_store_wf tracks d time tracks' :
  store_wf tracks ->
  update_track tracks d time = Ok tracks' -> store_wf tracks'.
Proof.
  intros Hwf. unfold update_track.
  destruct (det_obj_id d) as [oid|]; [|discriminate].
  destruct (det_bbox d) as [bbox|]; [|discriminate].
  cbn [subscript Py.bind].
  destruct (negb (mem oid tracks)).
  - destruct (det_label d) as [lbl|]; [|discriminate]. cbn [subscript Py.bind].
    rewrite get_set_eq. cbn [subscript Py.bind obj_id label history].
    intros [= <-]. apply store_wf_set; [|reflexivity].
    apply store_wf_set; [assumption|reflexivity].
  - cbn [Py.bind]. destruct (get oid tracks) as [track|] eqn:Eg; [|discriminate].
    cbn [subscript Py.bind]. intros [= <-].
    apply store_wf_set; [assumption|].
    destruct Hwf as [_ Hk]. cbn [obj_id]. apply Hk. now apply get_In.
Qed.

Lemma update_tracks_store_wf dets tracks time :
  store_wf tracks -> store_wf (snd (_update_tracks tracks dets time)).
Proof.
  revert tracks. induction dets as [|d dets IH]; intros tracks Hwf; cbn;
    [assumption|].
  destruct (update_track tracks d time) as [tracks'|e] eqn:E; [|assumption].
  apply IH. eapply update_track_store_wf; eassumption.
Qed.







Lemma process_object_store self speeds k tr :
  tracked_objects (snd (process_object self speeds k tr)) = tracked_objects self
  /\ baseline_model (snd (process_object self speeds k tr)) = baseline_model self.
Proof.
  unfold process_object.
  destruct (Py.bind _ _) as [[st score]|e]; [|auto].
  destruct (update_scenarios _ _ _) as [[u|e] scen]; [|auto].
  destruct (get_matched_playbook_info _ _) as [info|e]; [|auto].
  destruct (update_threat_probabilities _ _ _) as [r tp]. auto.
Qed.








End CalmVehicle.



(** The hypothesis of C2 in terms of the two polygons: with the configured
    baseline, a track is stopped in an anomalous zone exactly when its speed
    is below the stop threshold and its position is outside the normal-road
    polygon or outside the normal-stopping polygon. *)
Lemma stopped_in_anomalous_zone_at_polygons
    (track : TrackedObject) (cur : Sample) (speed : float) (in_road in_stop : bool) :
  item_neg1 (history track) = Ok cur ->
  ThreatDetector._calculate_speed_mps track = Ok speed ->
  BaselineModel._is_point_in_polygon (pos cur)
    (BaselineModel.normal_road_polygon BaselineModel.init) = Ok in_road ->
  BaselineModel._is_point_in_polygon (pos cur)
    (BaselineModel.normal_stopping_polygon BaselineModel.init) = Ok in_stop ->
  Props.stopped_in_anomalous_zone_at BaselineModel.init track
  = PrimFloat.ltb speed CONFIG.STOP_SPEED_THRESHOLD_MPS
    && (negb in_road || negb in_stop).
Proof.
  intros Hcur Hspeed Hroad Hstop. unfold Props.stopped_in_anomalous_zone_at.
  rewrite Hspeed, (calculate_anomaly_score_eq _ _ _ _ _ Hcur Hroad Hstop).
  destruct (PrimFloat.ltb speed _), in_road, in_stop; reflexivity.
Qed.

(** The boundary of C2: a van that only ever drives along the normal road
    is classified as stopped in the frame that first shows it (C10); seen
    first outside the normal-stopping polygon, it is stopped in an anomalous
    zone in that frame, and it is in the alert list of its fourth frame. *)
Example driving_van_alerted :
  Props.stopped_in_anomalous_zone_at BaselineModel.init
    (mkTrack 5 "van" [mkSample (130, 260) 1.0%float] 1.0%float) = true
  /\ fst (ThreatDetector.run ThreatDetector.init Props.driving_van_feed)
     = Ok [[]; []; [];
           [ {| ThreatSynthesizer.alert_obj_id := 5;
                ThreatSynthesizer.threat_type := "VBIED_DROPOFF";
                ThreatSynthesizer.probability := 0.999 |} ]].
Proof. split; vm_compute; reflexivity. Qed.

(** The other boundary of C2: the playbook applies to the labels van, truck
    and car only.  An object with another label never gets a scenario, so
    every frame that finds it off the road multiplies its belief by the
    generic-anomaly multiplier: a bus that is never stopped in an anomalous
    zone is in the alert list after nine frames off the road. *)
Example offroad_bus_alerted :
  Props.throughout (Props.untriggered_in_frame 6) ThreatDetector.init
    Props.offroad_bus_feed
  /\ (exists alerts,
        fst (ThreatDetector.run ThreatDetector.init Props.offroad_bus_feed)
        = Ok alerts
        /\ last alerts
           = Some [ {| ThreatSynthesizer.alert_obj_id := 6;
                       ThreatSynthesizer.threat_type := "VBIED_DROPOFF";
                       ThreatSynthesizer.probability := 0.999 |} ]).
Proof.
  split.
  - unfold Props.offroad_bus_feed. cbn [map Props.throughout].
    repeat (split; [intros track H; vm_compute in H; injection H as <-;
                    vm_compute; reflexivity|]).
    exact I.
  - eexists. split; vm_compute; reflexivity.
Qed.

(** The feed of the witness of C7 does write the link, once. *)
Example link_written_once_in_feed :
  Props.count_link_writes ∅ 101
    [(Simulation.van_stopped, Simulation.context_alone);
     (Simulation.van_stopped, Simulation.context_exit);
     (Simulation.van_stopped, Simulation.context_exit);
     (Simulation.van_stopped, Simulation.context_alone)] = 1%nat.
Proof. vm_compute. reflexivity. Qed.

(** * Further properties of the code *)

(** ** The point-in-polygon test *)

Section Polygon.
Import BaselineModel More.



Lemma edge_step_outside (point : Point) (p1 p2 : Point) :
  snd point <= Z.min (snd p1) (snd p2)
  \/ Z.max (snd p1) (snd p2) < snd point
  \/ Z.max (fst p1) (fst p2) < fst point ->
  edge_step point (p1, false) p2 = (p2, false).
Proof.
  destruct point as [x y], p1 as [p1x p1y], p2 as [p2x p2y]. cbn [fst snd].
  intros H. unfold edge_step.
  destruct (Z.ltb_spec (Z.min p1y p2y) y), (Z.leb_spec y (Z.max p1y p2y)),
    (Z.leb_spec x (Z.max p1x p2x)); cbn [andb]; try reflexivity; lia.
Qed.

Lemma fold_edge_step_outside (point : Point) (P : Point -> Prop)
    (vertices : list Point) (p1 : Point) :
  (forall a b, P a -> P b ->
     snd point <= Z.min (snd a) (snd b)
     \/ Z.max (snd a) (snd b) < snd point
     \/ Z.max (fst a) (fst b) < fst point) ->
  P p1 -> Forall P vertices ->
  snd (fold_left (edge_step point) vertices (p1, false)) = false.
Proof.
  intros HP. revert p1. induction vertices as [|v vertices IH]; intros p1 H1 Hv;
    [reflexivity|].
  apply Forall_cons_iff in Hv as [Hv0 Hv]. cbn [fold_left].
  rewrite edge_step_outside by auto. now apply IH.
Qed.

(** X2. Whatever the polygon, a point that lies to the right of every
    vertex, above every vertex, or not above any vertex is outside; the
    empty polygon raises [IndexError]. *)
Theorem point_out_of_range_outside (x y : Z) (polygon : list Point) :
  polygon <> [] ->
  Forall (fun v => fst v < x) polygon
  \/ Forall (fun v => snd v < y) polygon
  \/ Forall (fun v => y <= snd v) polygon ->
  _is_point_in_polygon (x, y) polygon = Ok false
  /\ _is_point_in_polygon (x, y) [] = Raise IndexError.
Proof.
  intros Hne H. split; [|reflexivity].
  destruct polygon as [|p0 polygon]; [congruence|].
  unfold _is_point_in_polygon. f_equal.
  destruct H as [H|[H|H]].
  - apply (fold_edge_step_outside (x, y) (fun v => fst v < x)).
    + cbn [fst snd]. intros; lia.
    + now apply Forall_cons_iff in H as [? _].
    + apply Forall_app. split; [assumption|].
      constructor; [now apply Forall_cons_iff in H as [? _]|constructor].
  - apply (fold_edge_step_outside (x, y) (fun v => snd v < y)).
    + cbn [fst snd]. intros; lia.
    + now apply Forall_cons_iff in H as [? _].
    + apply Forall_app. split; [assumption|].
      constructor; [now apply Forall_cons_iff in H as [? _]|constructor].
  - apply (fold_edge_step_outside (x, y) (fun v => y <= snd v)).
    + cbn [fst snd]. intros; lia.
    + now apply Forall_cons_iff in H as [? _].
    + apply Forall_app. split; [assumption|].
      constructor; [now apply Forall_cons_iff in H as [? _]|constructor].
Qed.

Lemma point_out_of_range_outside_witness :
  _is_point_in_polygon (1200, 260) [(0, 220); (500, 100); (1000, 300)]
  = Ok false
  /\ _is_point_in_polygon (1200, 260) [] = Raise IndexError.
Proof.
  apply (point_out_of_range_outside 1200 260 [(0, 220); (500, 100); (1000, 300)]).
  - discriminate.
  - left. repeat constructor.
Defined.

End Polygon.

(** ** Bounding boxes and tracks *)

Section Tracks.
Import ThreatDetector More.

(** X3. The representative point of a box of non-negative size lies in
    the box, within half a pixel of its middle. *)
Theorem get_center_in_box (x y w h : Z) :
  0 <= w -> 0 <= h ->
  x <= fst (_get_center (x, y, w, h)) <= x + w
  /\ y <= snd (_get_center (x, y, w, h)) <= y + h
  /\ 0 <= (2 * x + w) - 2 * fst (_get_center (x, y, w, h)) <= 1
  /\ 0 <= (2 * y + h) - 2 * snd (_get_center (x, y, w, h)) <= 1.
Proof.
  intros Hw Hh. unfold _get_center. cbn [fst snd].
  pose proof (Z.div_mod w 2). pose proof (Z.mod_pos_bound w 2).
  pose proof (Z.div_mod h 2). pose proof (Z.mod_pos_bound h 2). lia.
Qed.

Lemma get_center_in_box_witness :
  400 <= fst (_get_center (400, 350, 61, 50)) <= 400 + 61
  /\ 350 <= snd (_get_center (400, 350, 61, 50)) <= 350 + 50
  /\ 0 <= (2 * 400 + 61) - 2 * fst (_get_center (400, 350, 61, 50)) <= 1
  /\ 0 <= (2 * 350 + 50) - 2 * snd (_get_center (400, 350, 61, 50)) <= 1.
Proof. apply (get_center_in_box 400 350 61 50); lia. Defined.

Lemma store_extends_refl tracks : store_extends tracks tracks.
Proof.
  split; [exists []; now rewrite app_nil_r|].
  intros oid tr H. exists tr. split; [assumption|].
  split; [reflexivity|]. split; [reflexivity|].
  exists []. now rewrite app_nil_r.
Qed.

Lemma store_extends_trans tracks1 tracks2 tracks3 :
  store_extends tracks1 tracks2 -> store_extends tracks2 tracks3 ->
  store_extends tracks1 tracks3.
Proof.
  intros [(n1 & K1) H1] [(n2 & K2) H2]. split.
  - exists (n1 ++ n2). now rewrite K2, K1, <- app_assoc.
  - intros oid tr Hg. destruct (H1 _ _ Hg) as (tr2 & Hg2 & Ho & Hl & m1 & Hh).
    destruct (H2 _ _ Hg2) as (tr3 & Hg3 & Ho' & Hl' & m2 & Hh').
    exists tr3. split; [assumption|].
    split; [congruence|]. split; [congruence|].
    exists (m1 ++ m2). now rewrite Hh', Hh, <- app_assoc.
Qed.

Lemma store_extends_set_new tracks oid tr :
  get oid tracks = None -> store_extends tracks (set oid tr tracks).
Proof.
  intros Hn. split.
  - rewrite keys_set. unfold mem. rewrite Hn. eauto.
  - intros o tr0 Hg. exists tr0.
    rewrite get_set_ne by congruence. split; [assumption|].
    split; [reflexivity|]. split; [reflexivity|].
    exists []. now rewrite app_nil_r.
Qed.

Lemma store_extends_set_old tracks oid tr tr' :
  get oid tracks = Some tr -> extends_track tr tr' ->
  store_extends tracks (set oid tr' tracks).
Proof.
  intros Hg He. split.
  - rewrite keys_set. unfold mem. rewrite Hg. exists []. now rewrite app_nil_r.
  - intros o tr0 Hg0. destruct (decide (o = oid)) as [->|Hne].
    + rewrite get_set_eq. exists tr'. split; [reflexivity|]. congruence.
    + rewrite get_set_ne by assumption. exists tr0. split; [assumption|].
      split; [reflexivity|]. split; [reflexivity|].
      exists []. now rewrite app_nil_r.
Qed.

(** What one detection does to the store when it does not raise. *)
Lemma update_track_ok tracks d time tracks' :
  update_track tracks d time = Ok tracks' ->
  exists oid bbox,
    det_obj_id d = Some oid /\ det_bbox d = Some bbox
    /\ store_extends tracks tracks'
    /\ (forall o, o <> oid -> get o tracks' = get o tracks)
    /\ exists tr,
         get oid tracks' = Some tr
         /\ last_updated tr = time
         /\ exists earlier,
              history tr = earlier ++ [mkSample (_get_center bbox) time].
Proof.
  unfold update_track.
  destruct (det_obj_id d) as [oid|]; [|discriminate].
  destruct (det_bbox d) as [bbox|]; [|discriminate].
  cbn [subscript Py.bind]. intros H. exists oid, bbox.
  split; [reflexivity|]. split; [reflexivity|].
  unfold mem in H. destruct (get oid tracks) as [track|] eqn:Eg; cbn [negb] in H.
  - cbn [Py.bind] in H. rewrite Eg in H. cbn [subscript Py.bind] in H.
    injection H as <-.
    split; [|split].
    + apply (store_extends_set_old _ _ track); [assumption|].
      split; [reflexivity|]. split; [reflexivity|]. cbn [history]. eauto.
    + intros o Ho. now apply get_set_ne.
    + rewrite get_set_eq. eexists. split; [reflexivity|].
      split; [reflexivity|]. cbn [history]. eauto.
  - destruct (det_label d) as [lbl|]; [|discriminate].
    cbn [subscript Py.bind] in H. rewrite get_set_eq in H.
    cbn [subscript Py.bind obj_id label history] in H. injection H as <-.
    rewrite set_set_eq.
    split; [|split].
    + now apply store_extends_set_new.
    + intros o Ho. now apply get_set_ne.
    + rewrite get_set_eq. eexists. split; [reflexivity|].
      split; [reflexivity|]. cbn [history]. exists []. reflexivity.
Qed.

Lemma update_tracks_extends dets tracks time :
  store_extends tracks (snd (_update_tracks tracks dets time)).
Proof.
  revert tracks. induction dets as [|d dets IH]; intros tracks; cbn;
    [apply store_extends_refl|].
  destruct (update_track tracks d time) as [tracks'|e] eqn:E;
    [|apply store_extends_refl].
  destruct (update_track_ok _ _ _ _ E) as (_ & _ & _ & _ & He & _).
  eapply store_extends_trans; [exact He|apply IH].
Qed.

Lemma process_objects_store self speeds items :
  tracked_objects (snd (process_objects self speeds items)) = tracked_objects self
  /\ baseline_model (snd (process_objects self speeds items)) = baseline_model self.
Proof.
  revert self. induction items as [|[k tr] items IH]; intros self; [auto|].
  cbn [process_objects].
  destruct (process_object_store self speeds k tr) as [Ht Hb].
  destruct (process_object self speeds k tr) as [[u|e] self']; cbn [snd] in *;
    [|auto].
  destruct (IH self') as [Ht' Hb']. split; congruence.
Qed.

Lemma after_frame_tracks self f :
  tracked_objects (Props.after_frame self f) = Props.frame_tracks self f
  /\ baseline_model (Props.after_frame self f) = baseline_model self.
Proof.
  unfold Props.after_frame, Props.frame_tracks, process_frame_data.
  destruct (_update_tracks _ _ _) as [[u|e] tracks]; cbn [snd]; [|auto].
  destruct (compute_speeds tracks) as [speeds|e]; [|auto].
  match goal with
  | |- context [process_objects ?s speeds tracks] =>
      destruct (process_objects_store s speeds tracks) as [Ht Hb];
      destruct (process_objects s speeds tracks) as [[u'|e] self2]
  end; cbn [snd] in *; auto.
Qed.

(** X4. Processing frames never evicts, relabels or truncates a track:
    after any feed, raising frames included, every track that was in the
    store is still there under the same key, with the same label and its
    history extended at the end, and the keys keep their order. *)
Theorem tracks_append_only (self : ThreatDetector.t) (frames : list FrameData) :
  store_extends (tracked_objects self)
    (tracked_objects (after_frames self frames)).
Proof.
  revert self. induction frames as [|f frames IH]; intros self;
    [apply store_extends_refl|].
  cbn [after_frames fold_left]. eapply store_extends_trans; [|apply IH].
  rewrite (proj1 (after_frame_tracks self f)). apply update_tracks_extends.
Qed.

Lemma update_track_well_formed tracks d now :
  well_formed d -> exists tracks', update_track tracks d now = Ok tracks'.
Proof.
  intros ([oid Ho] & [lbl Hl] & [bbox Hb]). unfold update_track.
  rewrite Ho, Hb, Hl. cbn [subscript Py.bind]. unfold mem.
  destruct (get oid tracks) as [track|] eqn:Eg; cbn [negb Py.bind].
  - rewrite Eg. eexists. reflexivity.
  - rewrite get_set_eq. eexists. reflexivity.
Qed.

Lemma update_track_updated_at tracks d now tracks' :
  update_track tracks d now = Ok tracks' ->
  (forall oid, det_obj_id d = Some oid -> updated_at tracks' oid now)
  /\ (forall oid, updated_at tracks oid now -> updated_at tracks' oid now).
Proof.
  intros E.
  destruct (update_track_ok _ _ _ _ E)
    as (oid & bbox & Ho & _ & _ & Hfr & tr & Hg & Hl & earlier & Hh).
  assert (Hnew : updated_at tracks' oid now).
  { exists tr, (mkSample (_get_center bbox) now).
    split; [assumption|]. rewrite Hh, item_neg1_app. auto. }
  split.
  - intros o Ho'. congruence.
  - intros o (tr0 & s & Hg0 & Hs & Ht & Hl0).
    destruct (decide (o = oid)) as [->|Hne]; [assumption|].
    exists tr0, s. rewrite (Hfr _ Hne). auto.
Qed.

Lemma update_tracks_updated_at dets tracks now oid :
  fst (_update_tracks tracks dets now) = Ok tt ->
  updated_at tracks oid now ->
  updated_at (snd (_update_tracks tracks dets now)) oid now.
Proof.
  revert tracks. induction dets as [|d dets IH]; intros tracks; cbn;
    [auto|].
  destruct (update_track tracks d now) as [tracks'|e] eqn:E; [|discriminate].
  intros Hok Hu. apply IH; [assumption|].
  now apply (update_track_updated_at _ _ _ _ E).
Qed.


(** X5. A frame whose detections all carry their three fields is taken
    into the store without an exception: afterwards every detected object
    is tracked with the time of the frame as the time of its last sample
    and as [last_updated], and the object of the last detection has the
    centre of that detection's box as its current position. *)
Theorem well_formed_frame_applied
    (tracks : dict Z TrackedObject) (dets : list Detection) (now : float) :
  Forall well_formed dets ->
  fst (_update_tracks tracks dets now) = Ok tt
  /\ (forall d oid,
        In d dets -> det_obj_id d = Some oid ->
        updated_at (snd (_update_tracks tracks dets now)) oid now)
  /\ (forall ds d oid bbox,
        dets = ds ++ [d] ->
        det_obj_id d = Some oid -> det_bbox d = Some bbox ->
        exists tr,
          get oid (snd (_update_tracks tracks dets now)) = Some tr
          /\ item_neg1 (history tr) = Ok (mkSample (_get_center bbox) now)).
Proof.
  intros Hwf. revert tracks.
  induction Hwf as [|d0 dets Hd0 Hwf IH]; intros tracks.
  - split; [reflexivity|]. split; [intros ? ? []|].
    intros [|? ?] ? ? ? [=].
  - cbn [_update_tracks].
    destruct (update_track_well_formed tracks d0 now Hd0) as (tracks' & E).
    rewrite E. destruct (IH tracks') as (Hok & Hall & Hlast).
    split; [exact Hok|]. split.
    + intros d oid [<-|Hin] Ho.
      * apply update_tracks_updated_at; [exact Hok|].
        exact (proj1 (update_track_updated_at _ _ _ _ E) _ Ho).
      * now apply (Hall d).
    + intros [|d1 ds] d oid bbox Hsplit Ho Hb.
      * injection Hsplit as -> ->. cbn [_update_tracks snd].
        destruct (update_track_ok _ _ _ _ E)
          as (oid' & bbox' & Ho' & Hb' & _ & _ & tr & Hg & _ & earlier & Hh).
        exists tr. rewrite Ho in Ho'. rewrite Hb in Hb'.
        injection Ho' as <-. injection Hb' as <-.
        split; [assumption|]. now rewrite Hh, item_neg1_app.
      * injection Hsplit as -> ->. now apply (Hlast ds d).
Qed.

Lemma well_formed_frame_applied_witness :
  fst (_update_tracks []
         [Simulation.det 101 "van" (400, 350, 60, 50);
          Simulation.det 202 "pedestrian" (450, 350, 20, 40)] 5.0%float)
  = Ok tt
  /\ updated_at
       (snd (_update_tracks []
               [Simulation.det 101 "van" (400, 350, 60, 50);
                Simulation.det 202 "pedestrian" (450, 350, 20, 40)] 5.0%float))
       101 5.0%float
  /\ exists tr,
       get 202
         (snd (_update_tracks []
                 [Simulation.det 101 "van" (400, 350, 60, 50);
                  Simulation.det 202 "pedestrian" (450, 350, 20, 40)] 5.0%float))
       = Some tr
       /\ item_neg1 (history tr)
          = Ok (mkSample (_get_center (450, 350, 20, 40)) 5.0%float).
Proof.
  destruct (well_formed_frame_applied []
              [Simulation.det 101 "van" (400, 350, 60, 50);
               Simulation.det 202 "pedestrian" (450, 350, 20, 40)] 5.0%float)
    as (Hok & Hall & Hlast).
  - repeat constructor; eexists; reflexivity.
  - split; [exact Hok|]. split.
    + apply (Hall (Simulation.det 101 "van" (400, 350, 60, 50)));
        [left; reflexivity|reflexivity].
    + apply (Hlast [Simulation.det 101 "van" (400, 350, 60, 50)]
               (Simulation.det 202 "pedestrian" (450, 350, 20, 40)));
        reflexivity.
Defined.

End Tracks.

(** ** Frames that do not raise *)

Section NoRaise.
Import BehavioralEngine ThreatSynthesizer ThreatDetector Props More.






Lemma start_scenario_wf scen track ctx :
  wf_scenarios scen -> wf_scenarios (start_scenario scen track ctx).
Proof.
  intros Hwf. destruct (start_scenario_spec scen track ctx) as [->|[_ ->]];
    [assumption|].
  apply wf_scenarios_insert; cbn; auto; lia.
Qed.











End NoRaise.



(** ** The triggers *)

Section Triggers.
Import BehavioralEngine Props More.
Implicit Types (scen : gmap Z Scenario) (track : TrackedObject) (ctx : Context).

Lemma scenario_step_linked scen (c : scenario_call) :
  wf_scenarios scen ->
  (forall oid sc, scen !! oid = Some sc ->
     (2 <= state_index sc)%nat -> is_Some (linked_obj_id sc)) ->
  forall oid sc, scenario_step scen c !! oid = Some sc ->
    (2 <= state_index sc)%nat -> is_Some (linked_obj_id sc).
Proof.
  intros Hwf Hinv. destruct c as [track ctx].
  unfold scenario_step, update_scenarios. cbn [fst snd].
  pose proof (start_scenario_wf scen track ctx Hwf) as Hwf1.
  assert (Hinv1 : forall oid sc,
             start_scenario scen track ctx !! oid = Some sc ->
             (2 <= state_index sc)%nat -> is_Some (linked_obj_id sc)).
  { destruct (start_scenario_spec scen track ctx) as [->|[_ ->]]; [assumption|].
    intros oid sc. destruct (decide (oid = obj_id track)) as [->|Hne].
    - rewrite lookup_insert_eq. intros [= <-]. cbn. lia.
    - rewrite lookup_insert_ne by congruence. apply Hinv. }
  set (scen1 := start_scenario scen track ctx) in *.
  destruct (scen1 !! obj_id track) as [sc1|] eqn:Hsc1;
    [|now rewrite (advance_scenario_none _ _ _ Hsc1)].
  destruct (Hwf1 _ _ Hsc1) as (Hpb & _).
  destruct (advance_scenario_spec scen1 track ctx sc1 Hsc1 Hpb)
    as [[-> _]|[(Hlt & Hne1 & ->)|(H1 & _ & other & ->)]]; [assumption| |];
    intros oid sc; (destruct (decide (oid = obj_id track)) as [->|Hne];
      [rewrite lookup_insert_eq; intros [= <-]
      |rewrite lookup_insert_ne by congruence; apply Hinv1]).
  - cbn [advance state_index linked_obj_id]. intros Hge.
    apply (Hinv1 _ _ Hsc1). lia.
  - cbn. eauto.
Qed.

(** X8. Along every sequence of [update_scenarios] calls, a scenario
    carries a linked object exactly when its [state_index] is at least 2:
    the states DRIVER_EXIT and SEPARATION always have their pedestrian, the
    states before never have one. *)
Theorem linked_exactly_after_exit (calls : list scenario_call) :
  linked_when_exited (run_scenarios ∅ calls).
Proof.
  assert (H : wf_scenarios (run_scenarios ∅ calls)
              /\ forall oid sc, run_scenarios ∅ calls !! oid = Some sc ->
                   (2 <= state_index sc)%nat -> is_Some (linked_obj_id sc)).
  { unfold run_scenarios. generalize wf_scenarios_empty.
    assert (H0 : forall oid sc, (∅ : gmap Z Scenario) !! oid = Some sc ->
                   (2 <= state_index sc)%nat -> is_Some (linked_obj_id sc))
      by (intros oid sc H; rewrite lookup_empty in H; discriminate).
    revert H0. generalize (∅ : gmap Z Scenario).
    induction calls as [|c calls IH]; intros scen H0 Hwf; [auto|].
    cbn [fold_left]. apply IH.
    - now apply scenario_step_linked.
    - destruct c. now apply update_scenarios_step. }
  destruct H as [Hwf Hinv]. intros oid sc Hsc. split; [now apply (Hinv oid)|].
  intros [p Hp]. destruct (Hwf _ _ Hsc) as (_ & _ & Hnone).
  destruct (Nat.le_gt_cases 2 (state_index sc)) as [|Hlt]; [assumption|].
  rewrite (Hnone Hlt) in Hp. discriminate.
Qed.

(** X9. When the linked pedestrian is no longer tracked, or has fewer
    than two samples, the separation trigger does not fire and does not
    raise: [update_scenarios] returns normally and leaves the scenario
    table as it was, the scenario parked in DRIVER_EXIT. *)
Theorem separation_parked_without_pedestrian scen track ctx sc ped :
  scen !! obj_id track = Some sc ->
  playbook sc = "VBIED_DROPOFF"%string ->
  state_index sc = 2%nat ->
  linked_obj_id sc = Some ped ->
  (get ped (all_tracks ctx) = None
   \/ exists ped_track,
        get ped (all_tracks ctx) = Some ped_track
        /\ (length (history ped_track) < 2)%nat) ->
  update_scenarios scen track ctx = (Ok tt, scen).
Proof.
  intros Hsc Hpb Hidx Hl Hped. unfold update_scenarios, start_scenario.
  rewrite bool_decide_eq_true_2 by (rewrite Hsc; eauto). cbn [negb andb].
  unfold advance_scenario. rewrite Hsc, Hpb, get_vbied, Hidx.
  cbn [vbied_dropoff triggers length Nat.ltb Nat.leb nth_error].
  unfold _check_driver_separation, check_driver_separation.
  rewrite Hsc. cbn [subscript Py.bind]. rewrite Hl.
  destruct Hped as [->|(pt & -> & Hlen)]; [reflexivity|].
  apply Nat.ltb_lt in Hlen. now rewrite Hlen.
Qed.

Lemma separation_parked_without_pedestrian_witness :
  update_scenarios scenario_exited Simulation.van_stopped Simulation.context_alone
  = (Ok tt, scenario_exited).
Proof.
  apply (separation_parked_without_pedestrian scenario_exited
           Simulation.van_stopped Simulation.context_alone
           (mkScenario "VBIED_DROPOFF" 2 (Some 202)) 202).
  - reflexivity.
  - reflexivity.
  - reflexivity.
  - reflexivity.
  - left. reflexivity.
Defined.

Lemma driver_exit_scan_found vpos others p :
  driver_exit_scan vpos others = Ok (Some p) ->
  exists other s,
    In other others /\ obj_id other = p
    /\ label other = "pedestrian"%string /\ history other = [s]
    /\ PrimFloat.ltb (distance vpos (pos s)) 50%float = true.
Proof.
  induction others as [|o others IH]; cbn [driver_exit_scan]; [discriminate|].
  assert (Hrest : driver_exit_scan vpos others = Ok (Some p) ->
                  exists other s,
                    In other (o :: others) /\ obj_id other = p
                    /\ label other = "pedestrian"%string /\ history other = [s]
                    /\ PrimFloat.ltb (distance vpos (pos s)) 50%float = true).
  { intros H. destruct (IH H) as (other & s & Hin & Hrest).
    exists other, s. split; [now right|exact Hrest]. }
  destruct (String.eqb (label o) "pedestrian") eqn:El; cbn [andb];
    [|exact Hrest].
  destruct (Nat.eqb_spec (length (history o)) 1) as [Hlen|]; [|exact Hrest].
  destruct (history o) as [|s [|s' h]] eqn:Hh; try discriminate.
  cbn [item_neg1 rev app Py.bind].
  destruct (PrimFloat.ltb _ _) eqn:Ed; [|exact Hrest].
  intros [= <-]. exists o, s. apply String.eqb_eq in El.
  split; [now left|]. auto.
Qed.

(** X10. The driver-exit trigger links nothing but a newly appeared
    pedestrian close by: whenever it succeeds, the object it writes into
    the vehicle's scenario is a tracked object labelled pedestrian with
    exactly one sample, less than 50 pixels from the vehicle's current
    position, and no other scenario is touched; whenever it does not
    succeed it writes nothing. *)
Theorem driver_exit_links_new_pedestrian scen track ctx :
  (forall scen',
     _check_driver_exit scen track ctx = (Ok true, scen') ->
     exists vehicle other s,
       item_neg1 (history track) = Ok vehicle
       /\ In other (values (all_tracks ctx))
       /\ label other = "pedestrian"%string /\ history other = [s]
       /\ PrimFloat.ltb (distance (pos vehicle) (pos s)) 50%float = true
       /\ linked scen' (obj_id track) = Some (obj_id other)
       /\ forall oid, oid <> obj_id track -> scen' !! oid = scen !! oid)
  /\ (fst (_check_driver_exit scen track ctx) <> Ok true ->
      snd (_check_driver_exit scen track ctx) = scen).
Proof.
  split.
  - unfold _check_driver_exit.
    destruct (item_neg1 (history track)) as [vehicle|e]; cbn [Py.bind];
      [|discriminate].
    destruct (driver_exit_scan (pos vehicle) (values (all_tracks ctx)))
      as [[p|]|e] eqn:Es; try discriminate.
    destruct (scen !! obj_id track) as [sc|] eqn:Hsc; [|discriminate].
    intros scen' [= <-].
    destruct (driver_exit_scan_found _ _ _ Es)
      as (other & s & Hin & <- & Hl & Hh & Hd).
    exists vehicle, other, s. split; [reflexivity|].
    split; [exact Hin|]. split; [exact Hl|]. split; [exact Hh|].
    split; [exact Hd|]. split.
    + unfold linked. now rewrite lookup_insert_eq.
    + intros oid Hne. now rewrite lookup_insert_ne by congruence.
  - destruct (check_driver_exit_spec scen track ctx)
      as [(sc & other & _ & ->)|[_ H]]; [|auto].
    cbn [fst]. congruence.
Qed.

Lemma driver_exit_links_new_pedestrian_witness :
  exists vehicle other s,
    item_neg1 (history Simulation.van_stopped) = Ok vehicle
    /\ In other (values (all_tracks Simulation.context_exit))
    /\ label other = "pedestrian"%string /\ history other = [s]
    /\ PrimFloat.ltb (distance (pos vehicle) (pos s)) 50%float = true
    /\ linked
         (<[101 := set_linked (mkScenario "VBIED_DROPOFF" 1 None) 202]>
            scenario_stopped) (obj_id Simulation.van_stopped)
       = Some (obj_id other)
    /\ forall oid,
         oid <> obj_id Simulation.van_stopped ->
         <[101 := set_linked (mkScenario "VBIED_DROPOFF" 1 None) 202]>
           scenario_stopped !! oid
         = scenario_stopped !! oid.
Proof.
  apply (proj1 (driver_exit_links_new_pedestrian scenario_stopped
                  Simulation.van_stopped Simulation.context_exit)).
  vm_compute. reflexivity.
Defined.

End Triggers.

(** ** Evidence and beliefs *)

Section Evidence.
Import BehavioralEngine ThreatSynthesizer Props More.

Lemma state_key_lookup (state_name : string) :
  get ("state_" ++ state_name)%string
    [("high_anomaly"%string, 3.0%float);
     ("state_STOPPED_IN_ANOMALOUS_ZONE"%string, 10.0%float);
     ("state_DRIVER_EXIT"%string, 50.0%float);
     ("state_SEPARATION"%string, 100.0%float)]
  = if decide (state_name = "STOPPED_IN_ANOMALOUS_ZONE"%string) then Some 10.0%float
    else if decide (state_name = "DRIVER_EXIT"%string) then Some 50.0%float
    else if decide (state_name = "SEPARATION"%string) then Some 100.0%float
    else None.
Proof.
  cbn [get].
  destruct (decide (("state_" ++ state_name)%string = "high_anomaly"%string))
    as [E|_]; [discriminate E|].
  destruct (decide (state_name = "STOPPED_IN_ANOMALOUS_ZONE"%string)) as [->|N1].
  { now rewrite decide_True. }
  rewrite decide_False by (intros E; injection E as E; contradiction).
  destruct (decide (state_name = "DRIVER_EXIT"%string)) as [->|N2].
  { now rewrite decide_True. }
  rewrite decide_False by (intros E; injection E as E; contradiction).
  destruct (decide (state_name = "SEPARATION"%string)) as [->|N3].
  { now rewrite decide_True. }
  rewrite decide_False by (intros E; injection E as E; contradiction).
  reflexivity.
Qed.

(** X11. Evidence that carries a playbook state never gets the
    generic-anomaly multiplier: its multiplier does not depend on the
    anomaly score and is 10, 50 or 100 for the three later states of
    VBIED_DROPOFF and 1 for every other state or threat name; evidence
    without a playbook state gets 3 above the anomaly threshold and 1
    otherwise. *)
Theorem multiplier_by_evidence (score : float) (info : option PlaybookInfo) :
  multiplier {| ev_anomaly_score := score; ev_playbook_info := info |}
  = Ok match info with
       | Some i => state_multiplier (name i) (state i)
       | None =>
           if gtb score CONFIG.ANOMALY_THRESHOLD then 3.0%float else 1.0%float
       end.
Proof.
  unfold multiplier, state_multiplier. cbn [ev_playbook_info ev_anomaly_score].
  destruct info as [[threat_name state_name]|]; cbn [name state].
  - cbn [likelihoods get].
    destruct (decide (threat_name = "VBIED_DROPOFF"%string)); [|reflexivity].
    rewrite state_key_lookup.
    repeat (destruct (decide _); [reflexivity|]). reflexivity.
  - destruct (gtb score CONFIG.ANOMALY_THRESHOLD); reflexivity.
Qed.

Lemma stored_beliefs_above_prior : above_prior stored_beliefs = true.
Proof. vm_compute. reflexivity. Qed.

(** X12. Along every sequence of [update_threat_probabilities] calls,
    the only threat kind with a belief is VBIED_DROPOFF, and every stored
    belief lies between the prior 0.0001 and the cap 0.999. *)
Theorem belief_within_bounds
    (calls : list belief_call) (oid : Z) (threat : string) (p : float) :
  belief (run_beliefs [] calls) oid threat = Some p ->
  threat = "VBIED_DROPOFF"%string
  /\ PrimFloat.leb 0.0001%float p = true
  /\ PrimFloat.leb p 0.999%float = true.
Proof.
  assert (Hwf : wf_beliefs (run_beliefs [] calls))
    by apply wf_run_beliefs, wf_beliefs_nil.
  unfold belief. destruct (get oid (run_beliefs [] calls)) as [threats|] eqn:Et;
    [|discriminate].
  destruct (Hwf _ _ (get_In _ _ _ Et)) as (p0 & -> & Hp0). intros Hp.
  apply (get_singleton (V := float)) in Hp as [-> ->].
  split; [reflexivity|].
  split; [|exact (proj2 (stored_beliefs_bounds p0 Hp0))].
  pose proof stored_beliefs_above_prior as H. unfold above_prior in H.
  rewrite forallb_forall in H. exact (H _ Hp0).
Qed.

Lemma belief_within_bounds_witness :
  "VBIED_DROPOFF"%string = "VBIED_DROPOFF"%string
  /\ PrimFloat.leb 0.0001%float (PrimFloat.mul 0.0001 3.0) = true
  /\ PrimFloat.leb (PrimFloat.mul 0.0001 3.0) 0.999%float = true.
Proof.
  apply (belief_within_bounds [(101, Simulation.evidence_anomaly)] 101
           "VBIED_DROPOFF" (PrimFloat.mul 0.0001 3.0)).
  vm_compute. reflexivity.
Defined.

Lemma update_threat_keys tp oid ev :
  NoDup (keys tp) -> NoDup (keys (snd (update_threat_probabilities tp oid ev))).
Proof.
  intros Hnd. unfold update_threat_probabilities.
  set (tp0 := if negb (mem oid tp) then set oid prior tp else tp).
  assert (H0 : NoDup (keys tp0))
    by (subst tp0; destruct (negb (mem oid tp)); [now apply NoDup_keys_set|assumption]).
  destruct (multiplier ev) as [m|e]; [|exact H0].
  destruct (get oid tp0) as [threats|]; [|exact H0].
  unfold _normalize. rewrite get_set_eq. cbn [snd].
  now repeat apply NoDup_keys_set.
Qed.

Lemma run_beliefs_keys calls tp :
  NoDup (keys tp) -> NoDup (keys (run_beliefs tp calls)).
Proof.
  revert tp. induction calls as [|[o e] calls IH]; intros tp Hnd; [assumption|].
  apply IH. now apply update_threat_keys.
Qed.

Lemma collect_alerts_ids tp a :
  In a (collect_alerts tp) -> In (alert_obj_id a) (keys tp).
Proof.
  intros H. apply collect_alerts_In in H as (threats & Hin & _).
  now apply (in_map fst) in Hin.
Qed.

Lemma collect_alerts_one_per_object tp :
  wf_beliefs tp -> NoDup (keys tp) ->
  NoDup (map alert_obj_id (collect_alerts tp)).
Proof.
  induction tp as [|[oid threats] tp IH]; intros Hwf Hnd; [constructor|].
  apply NoDup_cons in Hnd as [Hnot Hnd].
  destruct (Hwf oid threats (or_introl eq_refl)) as (p & -> & _).
  assert (IH' : NoDup (map alert_obj_id (collect_alerts tp)))
    by (apply IH; [intros o t Hin; apply (Hwf o t); now right|assumption]).
  change (collect_alerts ((oid, [("VBIED_DROPOFF"%string, p)]) :: tp))
    with (((if gtb p CONFIG.ALERT_PROBABILITY_THRESHOLD
            then [ {| alert_obj_id := oid; threat_type := "VBIED_DROPOFF";
                      probability := p |} ]
            else []) ++ []) ++ collect_alerts tp).
  rewrite app_nil_r.
  destruct (gtb p CONFIG.ALERT_PROBABILITY_THRESHOLD); [|exact IH'].
  cbn [app map alert_obj_id]. apply NoDup_cons. split; [|exact IH'].
  intros Hin. apply Hnot. apply list_elem_of_In in Hin.
  apply in_map_iff in Hin as (a & <- & Ha). apply list_elem_of_In.
  now apply collect_alerts_ids.
Qed.

(** X13. On every belief table built by [update_threat_probabilities],
    the alert list names each object at most once, and it is no longer
    than the table. *)
Theorem one_alert_per_object (calls : list belief_call) :
  NoDup (map alert_obj_id (get_prioritized_alerts (run_beliefs [] calls)))
  /\ (length (get_prioritized_alerts (run_beliefs [] calls))
      <= length (run_beliefs [] calls))%nat.
Proof.
  assert (Hwf : wf_beliefs (run_beliefs [] calls))
    by apply wf_run_beliefs, wf_beliefs_nil.
  assert (Hnd : NoDup (keys (run_beliefs [] calls)))
    by (apply run_beliefs_keys; constructor).
  pose proof (collect_alerts_one_per_object _ Hwf Hnd) as Hone.
  assert (Hperm : Permutation
                    (map alert_obj_id (get_prioritized_alerts (run_beliefs [] calls)))
                    (map alert_obj_id (collect_alerts (run_beliefs [] calls))))
    by apply Permutation_map, sorted_desc_perm.
  split.
  - rewrite Hperm. exact Hone.
  - rewrite <- (length_map alert_obj_id), (Permutation_length Hperm).
    rewrite <- (length_map fst (run_beliefs [] calls)).
    apply NoDup_incl_length; [apply NoDup_ListNoDup; exact Hone|].
    intros x Hx. apply in_map_iff in Hx as (a & <- & Ha).
    now apply collect_alerts_ids.
Qed.

End Evidence.

(** ** Scenarios and labels *)

Section Vehicles.
Import BehavioralEngine ThreatSynthesizer ThreatDetector Props More.

Lemma update_scenarios_creates scen track ctx :
  scen !! obj_id track = None ->
  is_Some (snd (update_scenarios scen track ctx) !! obj_id track) ->
  relevant_label (label track) = true.
Proof.
  intros Hn. unfold update_scenarios, start_scenario.
  rewrite bool_decide_eq_false_2 by (rewrite Hn; intros [? ?]; discriminate).
  cbn [negb andb].
  destruct (gtb (anomaly_score ctx) CONFIG.ANOMALY_THRESHOLD);
    [|rewrite (advance_scenario_none _ _ _ Hn), Hn; intros [? ?]; discriminate].
  cbn [playbooks _load_playbooks fold_left fst].
  destruct (relevant_label (label track)); [reflexivity|].
  rewrite (advance_scenario_none _ _ _ Hn), Hn. intros [? ?]. discriminate.
Qed.

Lemma process_object_scenarios self speeds k tr :
  active_scenarios (snd (process_object self speeds k tr)) = active_scenarios self
  \/ exists ctx,
       active_scenarios (snd (process_object self speeds k tr))
       = snd (update_scenarios (active_scenarios self) tr ctx).
Proof.
  unfold process_object.
  destruct (Py.bind _ _) as [[st score]|e]; [|now left].
  right. eexists.
  destruct (update_scenarios (active_scenarios self) tr _) as [[u|e] scen] eqn:E;
    [|rewrite E; reflexivity].
  destruct (get_matched_playbook_info _ _) as [info|e];
    [|rewrite E; reflexivity].
  destruct (update_threat_probabilities _ _ _) as [r tp].
  rewrite E. reflexivity.
Qed.

Lemma process_object_vehicles self speeds k tr :
  store_wf (tracked_objects self) ->
  wf_scenarios (active_scenarios self) ->
  scenarios_on_vehicles self ->
  get k (tracked_objects self) = Some tr ->
  wf_scenarios (active_scenarios (snd (process_object self speeds k tr)))
  /\ scenarios_on_vehicles (snd (process_object self speeds k tr)).
Proof.
  intros Hst Hwf Hv Hg.
  assert (Hk : obj_id tr = k) by (apply Hst; now apply get_In).
  unfold scenarios_on_vehicles.
  rewrite (proj1 (process_object_store self speeds k tr)).
  destruct (process_object_scenarios self speeds k tr) as [->|(ctx & ->)];
    [auto|].
  destruct (update_scenarios_step (active_scenarios self) tr ctx Hwf)
    as (Hwf' & Hfr & _).
  unfold scenario_step in Hwf', Hfr. cbn [fst snd] in Hwf', Hfr.
  split; [exact Hwf'|].
  intros oid sc Hsc. destruct (decide (oid = obj_id tr)) as [->|Hne].
  - destruct (active_scenarios self !! obj_id tr) as [sc0|] eqn:H0.
    + exact (Hv _ _ H0).
    + exists tr. rewrite Hk. split; [exact Hg|].
      apply (update_scenarios_creates _ _ ctx H0). rewrite Hsc. eauto.
  - rewrite (Hfr _ Hne) in Hsc. exact (Hv _ _ Hsc).
Qed.

Lemma process_objects_vehicles items : forall self speeds,
  store_wf (tracked_objects self) ->
  wf_scenarios (active_scenarios self) ->
  scenarios_on_vehicles self ->
  (forall k tr, In (k, tr) items -> get k (tracked_objects self) = Some tr) ->
  wf_scenarios (active_scenarios (snd (process_objects self speeds items)))
  /\ scenarios_on_vehicles (snd (process_objects self speeds items)).
Proof.
  induction items as [|[k tr] items IH]; intros self speeds Hst Hwf Hv Hin;
    [auto|].
  cbn [process_objects].
  destruct (process_object_vehicles self speeds k tr Hst Hwf Hv
              (Hin _ _ (or_introl eq_refl))) as [Hwf1 Hv1].
  destruct (process_object_store self speeds k tr) as [Ht _].
  destruct (process_object self speeds k tr) as [[u|e] self1]; cbn [snd] in *;
    [|auto].
  apply IH; [now rewrite Ht|assumption|assumption|].
  intros k' tr' H'. rewrite Ht. apply Hin. now right.
Qed.

Lemma after_frame_vehicles self f :
  store_wf (tracked_objects self) ->
  wf_scenarios (active_scenarios self) ->
  scenarios_on_vehicles self ->
  store_wf (tracked_objects (after_frame self f))
  /\ wf_scenarios (active_scenarios (after_frame self f))
  /\ scenarios_on_vehicles (after_frame self f).
Proof.
  intros Hst Hwf Hv.
  split; [rewrite (proj1 (after_frame_tracks self f));
          now apply update_tracks_store_wf|].
  unfold after_frame, process_frame_data.
  pose proof (update_tracks_store_wf (detections f) _ (timestamp f) Hst) as Hst'.
  pose proof (update_tracks_extends (detections f) (tracked_objects self)
                (timestamp f)) as [_ Hext].
  destruct (_update_tracks _ _ _) as [r tracks]. cbn [snd] in Hst', Hext.
  set (self1 := {| tracked_objects := tracks;
                   baseline_model := baseline_model self;
                   active_scenarios := active_scenarios self;
                   threat_probabilities := threat_probabilities self |}).
  assert (Hv1 : scenarios_on_vehicles self1).
  { intros oid sc Hsc. destruct (Hv _ _ Hsc) as (tr & Hg & Hl).
    destruct (Hext _ _ Hg) as (tr' & Hg' & _ & Hl' & _).
    exists tr'. split; [exact Hg'|congruence]. }
  destruct r as [u|e]; [|auto].
  destruct (compute_speeds tracks) as [speeds|e]; [|auto].
  destruct (process_objects_vehicles tracks self1 speeds Hst' Hwf Hv1)
    as [Hwf2 Hv2];
    [intros k tr Hin; apply NoDup_keys_get; [apply Hst'|assumption]|].
  destruct (process_objects self1 speeds tracks) as [[u'|e] self2];
    cbn [snd] in *; auto.
Qed.

(** X14. Whatever the feed, raising frames included, every active
    scenario belongs to a tracked object labelled van, truck or car: an
    object with any other label never gets a scenario. *)
Theorem scenarios_only_for_vehicles (frames : list FrameData) :
  scenarios_on_vehicles (after_frames init frames).
Proof.
  assert (H : forall self,
             store_wf (tracked_objects self) ->
             wf_scenarios (active_scenarios self) ->
             scenarios_on_vehicles self ->
             scenarios_on_vehicles (after_frames self frames)).
  { induction frames as [|f frames IH]; intros self Hst Hwf Hv; [assumption|].
    cbn [after_frames fold_left].
    destruct (after_frame_vehicles self f Hst Hwf Hv) as (Hst' & Hwf' & Hv').
    now apply IH. }
  apply H.
  - split; [constructor|intros ? ? []].
  - apply wf_scenarios_empty.
  - intros oid sc Hsc. cbn [init active_scenarios] in Hsc.
    rewrite lookup_empty in Hsc. discriminate.
Qed.

End Vehicles.

(** ** Alerts over time *)

Section Ratchet.
Import BehavioralEngine ThreatSynthesizer ThreatDetector Props More.

Lemma stored_beliefs_alert_kept : alert_kept stored_beliefs = true.
Proof. vm_compute. reflexivity. Qed.

Local Opaque stored_beliefs.

Lemma alerted_belief tp oid :
  wf_beliefs tp -> NoDup (keys tp) ->
  (alerted tp oid
   <-> exists p, belief tp oid "VBIED_DROPOFF" = Some p
                 /\ gtb p CONFIG.ALERT_PROBABILITY_THRESHOLD = true).
Proof.
  intros Hwf Hnd. unfold alerted, get_prioritized_alerts. split.
  - intros (a & Ha & <-).
    apply (Permutation_in _ (sorted_desc_perm _)) in Ha.
    apply collect_alerts_In in Ha as (threats & Hin & Hin' & Hgt).
    destruct (Hwf _ _ Hin) as (p & -> & _).
    destruct Hin' as [E|[]]. injection E as _ E.
    exists p. split; [|congruence].
    unfold belief. rewrite (NoDup_keys_get _ _ _ Hnd Hin). reflexivity.
  - intros (p & Hb & Hgt). unfold belief in Hb.
    destruct (get oid tp) as [threats|] eqn:Eg; [|discriminate].
    pose proof (get_In _ _ _ Eg) as Hin.
    destruct (Hwf _ _ Hin) as (p0 & -> & _).
    apply (get_singleton (V := float)) in Hb as [_ ->].
    exists {| alert_obj_id := oid; threat_type := "VBIED_DROPOFF";
              probability := p0 |}.
    split; [|reflexivity].
    apply (Permutation_in _ (Permutation_sym (sorted_desc_perm _))).
    apply collect_alerts_In. exists [("VBIED_DROPOFF"%string, p0)].
    split; [exact Hin|]. split; [now left|exact Hgt].
Qed.

Lemma belief_stays_alerting calls : forall tp oid p,
  wf_beliefs tp ->
  belief tp oid "VBIED_DROPOFF" = Some p ->
  gtb p CONFIG.ALERT_PROBABILITY_THRESHOLD = true ->
  exists p', belief (run_beliefs tp calls) oid "VBIED_DROPOFF" = Some p'
             /\ gtb p' CONFIG.ALERT_PROBABILITY_THRESHOLD = true.
Proof.
  induction calls as [|[o ev] calls IH]; intros tp oid p Hwf Hb Hgt; [eauto|].
  cbn [run_beliefs fold_left]. fold (run_beliefs (belief_step tp (o, ev)) calls).
  unfold belief_step. cbn [fst snd].
  destruct (update_threat_probabilities_step tp o ev Hwf)
    as (q & m & Hq & Hs & _ & Hm & Eg & Hfr & Hwf').
  destruct (decide (o = oid)) as [->|Hne].
  - destruct Hq as [Hq|[Hq _]];
      [|unfold belief in Hb; rewrite Hq in Hb; discriminate Hb].
    rewrite Hb in Hq. injection Hq as <-.
    apply (IH _ oid (cap (PrimFloat.mul p m)) Hwf').
    + unfold belief. rewrite Eg. reflexivity.
    + pose proof stored_beliefs_alert_kept as H. unfold alert_kept in H.
      rewrite forallb_forall in H. specialize (H _ Hs).
      rewrite forallb_forall in H. specialize (H _ Hm).
      rewrite Hgt in H. exact H.
  - apply (IH _ oid p Hwf'); [|exact Hgt].
    unfold belief in Hb |- *. rewrite (Hfr oid) by congruence. exact Hb.
Qed.

(** X15. Alerts are sticky: once an object is named in the alert list,
    it is named in the alert list after every further sequence of
    [update_threat_probabilities] calls, whatever their evidence. *)
Theorem alert_never_withdrawn (calls more : list belief_call) (oid : Z) :
  alerted (run_beliefs [] calls) oid ->
  alerted (run_beliefs [] (calls ++ more)) oid.
Proof.
  assert (Hwf : forall cs, wf_beliefs (run_beliefs [] cs))
    by (intros cs; apply wf_run_beliefs, wf_beliefs_nil).
  assert (Hnd : forall cs, NoDup (keys (run_beliefs [] cs)))
    by (intros cs; apply run_beliefs_keys; constructor).
  rewrite (alerted_belief _ oid (Hwf calls) (Hnd calls)).
  rewrite (alerted_belief _ oid (Hwf (calls ++ more)) (Hnd (calls ++ more))).
  intros (p & Hb & Hgt). unfold run_beliefs at 1. rewrite fold_left_app.
  exact (belief_stays_alerting more _ oid p (Hwf calls) Hb Hgt).
Qed.

Lemma alert_never_withdrawn_witness :
  alerted
    (run_beliefs []
       (repeat (101, Simulation.evidence_stopped) 4
          ++ repeat (101, {| ev_anomaly_score := 0.0%float;
                             ev_playbook_info := None |}) 3))
    101.
Proof.
  apply (alert_never_withdrawn (repeat (101, Simulation.evidence_stopped) 4)).
  exists {| alert_obj_id := 101; threat_type := "VBIED_DROPOFF";
            probability := 0.999%float |}.
  split; [vm_compute; left; reflexivity|reflexivity].
Defined.

(** X16. On every scenario table built by [update_scenarios],
    [get_matched_playbook_info] returns without an exception: nothing for
    an object without a scenario, and otherwise the playbook name with the
    state that the playbook lists at the scenario's index, which is always
    within the list. *)
Theorem playbook_info_reported (calls : list scenario_call) (oid : Z) :
  match run_scenarios ∅ calls !! oid with
  | None => get_matched_playbook_info (run_scenarios ∅ calls) oid = Ok None
  | Some sc =>
      exists state_name,
        nth_error (states vbied_dropoff) (state_index sc) = Some state_name
        /\ get_matched_playbook_info (run_scenarios ∅ calls) oid
           = Ok (Some {| name := "VBIED_DROPOFF"; state := state_name |})
  end.
Proof.
  pose proof (wf_run_scenarios calls ∅ wf_scenarios_empty) as Hwf.
  unfold get_matched_playbook_info.
  destruct (run_scenarios ∅ calls !! oid) as [sc|] eqn:Hsc; [|reflexivity].
  destruct (Hwf _ _ Hsc) as (Hpb & Hidx & _). rewrite Hpb, get_vbied.
  cbn [subscript Py.bind].
  destruct (state_index sc) as [|[|[|[|n]]]]; try lia;
    eexists; split; reflexivity.
Qed.

End Ratchet.

(** ** The first frame of a vehicle *)

Section FirstFrame.
Import BehavioralEngine ThreatSynthesizer ThreatDetector Props More.

Lemma entry_trigger_fires oid track ctx :
  obj_id track = oid ->
  relevant_label (label track) = true ->
  is_stopped ctx = true ->
  gtb (anomaly_score ctx) CONFIG.ANOMALY_THRESHOLD = true ->
  update_scenarios ∅ track ctx
  = (Ok tt, {[ oid := mkScenario "VBIED_DROPOFF" 1 None ]}).
Proof.
  intros Ho Hrel Hst Hgt. unfold update_scenarios, start_scenario.
  rewrite lookup_empty.
  rewrite bool_decide_eq_false_2 by (intros [? ?]; discriminate).
  rewrite Hgt. cbn [negb andb playbooks _load_playbooks fold_left fst].
  rewrite Hrel, Ho. unfold advance_scenario. rewrite Ho, lookup_insert_eq.
  cbn [playbook]. rewrite get_vbied.
  cbn [state_index vbied_dropoff triggers length Nat.ltb Nat.leb nth_error].
  unfold stopped_in_anomalous_zone. rewrite Hst, Hgt. cbn [andb].
  rewrite lookup_insert_eq, insert_insert_eq. unfold default.
  cbn [from_option id advance state_index states item nth_error Py.bind
       playbook linked_obj_id].
  rewrite insert_empty. reflexivity.
Qed.

Lemma first_update_stopped oid score :
  update_threat_probabilities [] oid
    {| ev_anomaly_score := score;
       ev_playbook_info :=
         Some {| name := "VBIED_DROPOFF";
                 state := "STOPPED_IN_ANOMALOUS_ZONE" |} |}
  = (Ok tt, [(oid, [("VBIED_DROPOFF"%string, 0.001%float)])]).
Proof.
  unfold update_threat_probabilities.
  change (multiplier _) with (Ok 10.0%float).
  cbn [mem get negb set]. rewrite decide_True by reflexivity.
  unfold _normalize. cbn [set get]. rewrite !decide_True by reflexivity.
  cbn [get]. rewrite decide_True by reflexivity.
  cbn [set]. rewrite decide_True by reflexivity. reflexivity.
Qed.

(** X17. A vehicle (van, truck or car) that enters an empty scene
    anywhere outside the normal-stopping polygon is treated as stopped in
    an anomalous zone in that very frame, whatever its later motion: the
    frame starts its scenario, advances it to STOPPED_IN_ANOMALOUS_ZONE and
    multiplies its belief by 10. *)
Theorem new_vehicle_enters_stopped
    (oid : Z) (lbl : string) (bbox : Z * Z * Z * Z) (now : float) :
  relevant_label lbl = true ->
  BaselineModel._is_point_in_polygon (_get_center bbox)
    (BaselineModel.normal_stopping_polygon BaselineModel.init) = Ok false ->
  fst (process_frame_data init (mkFrame now [Simulation.det oid lbl bbox]))
  = Ok []
  /\ active_scenarios
       (after_frame init (mkFrame now [Simulation.det oid lbl bbox])) !! oid
     = Some (mkScenario "VBIED_DROPOFF" 1 None)
  /\ belief
       (threat_probabilities
          (after_frame init (mkFrame now [Simulation.det oid lbl bbox])))
       oid "VBIED_DROPOFF"
     = Some 0.001%float.
Proof.
  intros Hrel Hstop.
  set (track := {| obj_id := oid; label := lbl;
                   history := [mkSample (_get_center bbox) now];
                   last_updated := now |}).
  assert (Etracks : _update_tracks [] [Simulation.det oid lbl bbox] now
                    = (Ok tt, [(oid, track)])).
  { cbn. rewrite !decide_True by reflexivity. cbn.
    rewrite decide_True by reflexivity. reflexivity. }
  destruct (is_point_in_polygon_total (_get_center bbox)
              (BaselineModel.normal_road_polygon BaselineModel.init))
    as (in_road & Hroad); [discriminate|].
  assert (Escore : BaselineModel.calculate_anomaly_score BaselineModel.init
                     track true = Ok 0.95%float).
  { rewrite (calculate_anomaly_score_eq track true
               (mkSample (_get_center bbox) now) in_road false);
      [|reflexivity|exact Hroad|exact Hstop].
    destruct in_road; reflexivity. }
  assert (Eframe : process_frame_data init
                     (mkFrame now [Simulation.det oid lbl bbox])
                   = (Ok [],
                      {| tracked_objects := [(oid, track)];
                         baseline_model := BaselineModel.init;
                         active_scenarios :=
                           {[ oid := mkScenario "VBIED_DROPOFF" 1 None ]};
                         threat_probabilities :=
                           [(oid, [("VBIED_DROPOFF"%string, 0.001%float)])] |})).
  { unfold process_frame_data.
    cbn [timestamp detections tracked_objects baseline_model active_scenarios
         threat_probabilities init].
    rewrite Etracks.
    change (compute_speeds [(oid, track)]) with (Ok [(oid, 0.0%float)]).
    cbn [process_objects]. unfold process_object.
    cbn [tracked_objects baseline_model active_scenarios threat_probabilities
         get].
    rewrite decide_True by reflexivity. cbn [subscript Py.bind].
    change (PrimFloat.ltb 0 CONFIG.STOP_SPEED_THRESHOLD_MPS) with true.
    rewrite Escore. cbn [Py.bind].
    rewrite (entry_trigger_fires oid) by first [exact Hrel | reflexivity].
    unfold get_matched_playbook_info. rewrite lookup_singleton_eq.
    cbn [playbook]. rewrite get_vbied.
    cbn [subscript Py.bind state_index vbied_dropoff states item nth_error].
    rewrite first_update_stopped. reflexivity. }
  unfold after_frame. rewrite Eframe. cbn [fst snd active_scenarios
                                           threat_probabilities].
  split; [reflexivity|]. split; [apply lookup_singleton_eq|].
  unfold belief. cbn [get]. rewrite decide_True by reflexivity.
  reflexivity.
Qed.

Lemma new_vehicle_enters_stopped_witness :
  fst (process_frame_data init
         (mkFrame 1.0%float [Simulation.det 101 "van" (100, 240, 60, 50)]))
  = Ok []
  /\ active_scenarios
       (after_frame init
          (mkFrame 1.0%float [Simulation.det 101 "van" (100, 240, 60, 50)]))
     !! 101
     = Some (mkScenario "VBIED_DROPOFF" 1 None)
  /\ belief
       (threat_probabilities
          (after_frame init
             (mkFrame 1.0%float [Simulation.det 101 "van" (100, 240, 60, 50)])))
       101 "VBIED_DROPOFF"
     = Some 0.001%float.
Proof.
  apply (new_vehicle_enters_stopped 101 "van" (100, 240, 60, 50) 1.0%float);
    reflexivity.
Defined.

End FirstFrame.
